(** * Nigeria tax calculator: the tax engine and the extraction pipeline

    A shallow embedding of [services/geminiService.ts] and the properties
    its specification states.  The repository keeps two copies of the
    service: one with size-based auto-scaling of the model and a repair of
    truncated JSON, one without either.  Their tax engines are identical;
    their [extractTransactionsFromDocument] functions are embedded
    separately ([CopyA], [CopyB]).

    Numbers.  A TypeScript [number] is an IEEE-754 binary64 value.  The tax
    engine is embedded twice, from the same source text:
    - [Exact]: over the rationals [Q], where every operation is exact; the
      universally quantified properties are proved here;
    - [Binary64]: over Rocq's primitive binary64 floats, whose operations
      round as the JavaScript ones do; the worked examples and sample
      inputs are evaluated here, and the universally quantified properties
      are not claimed of it.
    The band limit [Infinity] is [None] in both: [Math.min(x, Infinity)] is
    [x] for every [x]. *)

From Stdlib Require Import QArith Qminmax Lqa ZArith Lia List Bool.
From Stdlib Require Import Ascii String.
From Stdlib Require Import PrimFloat.
Import ListNotations.

Set Warnings "-inexact-float,-register-all".

(** ** The tax engine over exact rationals *)

Module Exact.

Local Open Scope Q_scope.

(** [x < y] as a test, for [grossIncome > 0]. *)
Definition Qlt_bool (x y : Q) : bool := negb (Qle_bool y x).

Record TaxBreakdown : Type := mkTaxBreakdown {
  grossIncome : Q;
  consolidatedRelief : Q;
  taxableIncome : Q;
  totalTax : Q;
  effectiveRate : Q
}.

(** One entry of the [bands] array; [limit = None] is [Infinity]. *)
Record Band : Type := mkBand {
  limit : option Q;
  rate : Q
}.

Definition bands : list Band :=
  [ mkBand (Some 300000) 0.07;
    mkBand (Some 300000) 0.11;
    mkBand (Some 500000) 0.15;
    mkBand (Some 500000) 0.19;
    mkBand (Some 1600000) 0.21;
    mkBand None 0.24 ].

(** [Math.min(remaining, band.limit)] *)
Definition taxableAt (remaining : Q) (band : Band) : Q :=
  match limit band with
  | Some l => Qmin remaining l
  | None => remaining
  end.

(** The [for (const band of bands)] loop, on the pair [(tax, remaining)]. *)
Fixpoint bandLoop (bs : list Band) (tax remaining : Q) : Q * Q :=
  match bs with
  | [] => (tax, remaining)
  | band :: rest =>
      if Qle_bool remaining 0 then (tax, remaining)
      else
        let taxableAtThisBand := taxableAt remaining band in
        bandLoop rest (tax + taxableAtThisBand * rate band)
                      (remaining - taxableAtThisBand)
  end.

(** The successive values of [taxableAtThisBand], one per iteration that the
    loop executes, paired with the band they were taxed in. *)
Fixpoint bandAmounts (bs : list Band) (remaining : Q) : list (Band * Q) :=
  match bs with
  | [] => []
  | band :: rest =>
      if Qle_bool remaining 0 then []
      else
        let taxableAtThisBand := taxableAt remaining band in
        (band, taxableAtThisBand)
          :: bandAmounts rest (remaining - taxableAtThisBand)
  end.

Definition calculateNigerianPIT (grossIncome : Q) : TaxBreakdown :=
  let baseRelief := Qmax 200000 (grossIncome * 0.01) in
  let variableRelief := grossIncome * 0.20 in
  let consolidatedRelief := baseRelief + variableRelief in
  let taxableIncome := Qmax 0 (grossIncome - consolidatedRelief) in
  let tax := fst (bandLoop bands 0 taxableIncome) in
  {| grossIncome := grossIncome;
     consolidatedRelief := consolidatedRelief;
     taxableIncome := taxableIncome;
     totalTax := tax;
     effectiveRate :=
       if Qlt_bool 0 grossIncome then (tax / grossIncome) * 100 else 0 |}.




End Exact.

(** ** The tax engine over binary64 *)

Module Binary64.

Local Open Scope float_scope.

Record TaxBreakdown : Type := mkTaxBreakdown {
  grossIncome : float;
  consolidatedRelief : float;
  taxableIncome : float;
  totalTax : float;
  effectiveRate : float
}.

Record Band : Type := mkBand {
  limit : option float;
  rate : float
}.

(** [Math.max] and [Math.min] on two arguments: [NaN] if either is [NaN],
    and [+0] counts as larger than [-0]. *)
Definition Math_max (a b : float) : float :=
  if is_nan a || is_nan b then nan
  else if ltb a b then b
  else if ltb b a then a
  else if is_zero a && get_sign a then b else a.

Definition Math_min (a b : float) : float :=
  if is_nan a || is_nan b then nan
  else if ltb a b then a
  else if ltb b a then b
  else if is_zero a && get_sign a then a else b.

Definition bands : list Band :=
  [ mkBand (Some 300000) 0.07;
    mkBand (Some 300000) 0.11;
    mkBand (Some 500000) 0.15;
    mkBand (Some 500000) 0.19;
    mkBand (Some 1600000) 0.21;
    mkBand None 0.24 ].

Definition taxableAt (remaining : float) (band : Band) : float :=
  match limit band with
  | Some l => Math_min remaining l
  | None => remaining
  end.

Fixpoint bandLoop (bs : list Band) (tax remaining : float) : float * float :=
  match bs with
  | [] => (tax, remaining)
  | band :: rest =>
      if leb remaining 0 then (tax, remaining)
      else
        let taxableAtThisBand := taxableAt remaining band in
        bandLoop rest (tax + taxableAtThisBand * rate band)
                      (remaining - taxableAtThisBand)
  end.

Fixpoint bandAmounts (bs : list Band) (remaining : float)
  : list (Band * float) :=
  match bs with
  | [] => []
  | band :: rest =>
      if leb remaining 0 then []
      else
        let taxableAtThisBand := taxableAt remaining band in
        (band, taxableAtThisBand)
          :: bandAmounts rest (remaining - taxableAtThisBand)
  end.

Definition calculateNigerianPIT (grossIncome : float) : TaxBreakdown :=
  let baseRelief := Math_max 200000 (grossIncome * 0.01) in
  let variableRelief := grossIncome * 0.20 in
  let consolidatedRelief := baseRelief + variableRelief in
  let taxableIncome := Math_max 0 (grossIncome - consolidatedRelief) in
  let tax := fst (bandLoop bands 0 taxableIncome) in
  {| grossIncome := grossIncome;
     consolidatedRelief := consolidatedRelief;
     taxableIncome := taxableIncome;
     totalTax := tax;
     effectiveRate :=
       if ltb 0 grossIncome then (tax / grossIncome) * 100 else 0 |}.

End Binary64.


(** ** JavaScript strings

    A string is modelled by its sequence of bytes; letter case and white
    space are those of ASCII. *)

Module Js.

Local Open Scope string_scope.

(** [s.includes(sub)] *)
Fixpoint includes (s sub : string) : bool :=
  if prefix sub s then true
  else match s with
       | EmptyString => false
       | String _ rest => includes rest sub
       end.

Definition startsWith (s p : string) : bool := prefix p s.

Definition endsWith (s p : string) : bool :=
  let n := String.length s in
  let m := String.length p in
  (m <=? n)%nat && String.eqb (substring (n - m) m s) p.

(** [s.toLowerCase()] *)
Definition lowerChar (c : ascii) : ascii :=
  let n := nat_of_ascii c in
  if ((65 <=? n) && (n <=? 90))%nat then ascii_of_nat (n + 32) else c.

Fixpoint toLowerCase (s : string) : string :=
  match s with
  | EmptyString => EmptyString
  | String c rest => String (lowerChar c) (toLowerCase rest)
  end.

(** [s.lastIndexOf(c)] for a one-character [c]; [-1] when absent. *)
Fixpoint lastIndexOf_from (i : Z) (found : Z) (s : string) (c : ascii) : Z :=
  match s with
  | EmptyString => found
  | String d rest =>
      lastIndexOf_from (i + 1) (if Ascii.eqb d c then i else found) rest c
  end.

Definition lastIndexOf (s : string) (c : ascii) : Z :=
  lastIndexOf_from 0 (-1) s c.

(** [s.substring(0, n)] *)
Definition substring0 (s : string) (n : Z) : string :=
  substring 0 (Z.to_nat n) s.

(** White space and line terminators removed by [trim]. *)
Definition isTrimmed (c : ascii) : bool :=
  let n := nat_of_ascii c in
  ((n =? 9) || (n =? 10) || (n =? 11) || (n =? 12) || (n =? 13) || (n =? 32))%nat.

Fixpoint trimStart (s : string) : string :=
  match s with
  | EmptyString => EmptyString
  | String c rest => if isTrimmed c then trimStart rest else s
  end.

Fixpoint trimEnd (s : string) : string :=
  match s with
  | EmptyString => EmptyString
  | String c rest =>
      match trimEnd rest with
      | EmptyString => if isTrimmed c then EmptyString else String c EmptyString
      | rest' => String c rest'
      end
  end.

Definition trim (s : string) : string := trimEnd (trimStart s).

(** [s.replace(/pat/g, '')] for a literal, non-empty [pat]: matches are
    found left to right and do not overlap.  [skip] counts the characters
    of the current match still to drop. *)
Fixpoint removeAll_from (skip : nat) (pat s : string) : string :=
  match s with
  | EmptyString => EmptyString
  | String c rest =>
      match skip with
      | S k => removeAll_from k pat rest
      | O =>
          if prefix pat s
          then removeAll_from (String.length pat - 1) pat rest
          else String c (removeAll_from 0 pat rest)
      end
  end.

Definition removeAll (pat s : string) : string := removeAll_from 0 pat s.

(** [s.split(sep)] for a one-character separator. *)
Fixpoint split (sep : ascii) (s : string) : list string :=
  match s with
  | EmptyString => [EmptyString]
  | String c rest =>
      if Ascii.eqb c sep then EmptyString :: split sep rest
      else match split sep rest with
           | [] => [String c EmptyString]
           | h :: t => String c h :: t
           end
  end.

(** Truthiness of a possibly [undefined] string. *)
Definition truthy (o : option string) : bool :=
  match o with
  | Some (String _ _) => true
  | _ => false
  end.

(** [a || b] on strings. *)
Definition orElse (o : option string) (b : string) : string :=
  match o with
  | Some (String c r) => String c r
  | _ => b
  end.

End Js.

(** ** [JSON.parse] *)

Module Json.

Local Open Scope string_scope.

(** A parsed JSON text.  A number keeps the decimal value of its literal,
    [mantissa * 10 ^ exponent]; an object keeps its members in the order of
    the text. *)
Inductive JSON : Type :=
| JNull
| JBool (b : bool)
| JNumber (mantissa exponent : Z)
| JString (s : string)
| JArray (items : list JSON)
| JObject (members : list (string * JSON)).

Inductive Parse (A : Type) : Type :=
| Parsed (a : A) (rest : string)
| SyntaxError
| OutOfFuel.

Arguments Parsed {A} a rest.
Arguments SyntaxError {A}.
Arguments OutOfFuel {A}.

Definition quote : ascii := "034"%char.
Definition backslash : ascii := "092"%char.

Definition isWhite (c : ascii) : bool :=
  let n := nat_of_ascii c in
  ((n =? 32) || (n =? 9) || (n =? 10) || (n =? 13))%nat.

Fixpoint skip_ws (s : string) : string :=
  match s with
  | EmptyString => EmptyString
  | String c rest => if isWhite c then skip_ws rest else s
  end.

Fixpoint drop (n : nat) (s : string) : string :=
  match n, s with
  | O, _ => s
  | S k, String _ rest => drop k rest
  | S _, EmptyString => EmptyString
  end.

Definition digitValue (c : ascii) : option Z :=
  let n := nat_of_ascii c in
  if ((48 <=? n) && (n <=? 57))%nat then Some (Z.of_nat (n - 48)) else None.

Definition hexValue (c : ascii) : option N :=
  let n := nat_of_ascii c in
  if ((48 <=? n) && (n <=? 57))%nat then Some (N.of_nat (n - 48))
  else if ((65 <=? n) && (n <=? 70))%nat then Some (N.of_nat (n - 55))
  else if ((97 <=? n) && (n <=? 102))%nat then Some (N.of_nat (n - 87))
  else None.

(** The UTF-8 bytes of a code unit given by a [\uXXXX] escape. *)
Definition utf8 (u : N) (tail : string) : string :=
  if (u <? 128)%N then String (ascii_of_N u) tail
  else if (u <? 2048)%N then
    String (ascii_of_N (192 + u / 64))
      (String (ascii_of_N (128 + u mod 64)) tail)
  else
    String (ascii_of_N (224 + u / 4096))
      (String (ascii_of_N (128 + (u / 64) mod 64))
         (String (ascii_of_N (128 + u mod 64)) tail)).

Definition hex4 (a b c d : ascii) : option N :=
  match hexValue a, hexValue b, hexValue c, hexValue d with
  | Some x, Some y, Some z, Some w => Some (((x * 16 + y) * 16 + z) * 16 + w)%N
  | _, _, _, _ => None
  end.

(** The characters of a string literal after its opening quote, up to and
    including the closing quote. *)
Fixpoint parse_chars (s : string) : option (string * string) :=
  match s with
  | EmptyString => None
  | String c r =>
      if Ascii.eqb c quote then Some (EmptyString, r)
      else if Ascii.eqb c backslash then
        match r with
        | EmptyString => None
        | String e r1 =>
            let continue (d : ascii) :=
              match parse_chars r1 with
              | Some (str, rest) => Some (String d str, rest)
              | None => None
              end in
            if Ascii.eqb e quote then continue quote
            else if Ascii.eqb e backslash then continue backslash
            else if Ascii.eqb e "/" then continue "/"%char
            else if Ascii.eqb e "b" then continue "008"%char
            else if Ascii.eqb e "f" then continue "012"%char
            else if Ascii.eqb e "n" then continue "010"%char
            else if Ascii.eqb e "r" then continue "013"%char
            else if Ascii.eqb e "t" then continue "009"%char
            else if Ascii.eqb e "u" then
              match r1 with
              | String h1 (String h2 (String h3 (String h4 r2))) =>
                  match hex4 h1 h2 h3 h4, parse_chars r2 with
                  | Some u, Some (str, rest) => Some (utf8 u str, rest)
                  | _, _ => None
                  end
              | _ => None
              end
            else None
        end
      else if (nat_of_ascii c <? 32)%nat then None
      else
        match parse_chars r with
        | Some (str, rest) => Some (String c str, rest)
        | None => None
        end
  end.

(** The longest run of digits at the head of [s]: its value after [acc],
    the number of digits, and what follows. *)
Fixpoint digits (s : string) (acc : Z) (count : Z) : Z * Z * string :=
  match s with
  | EmptyString => (acc, count, s)
  | String c r =>
      match digitValue c with
      | Some d => digits r (acc * 10 + d) (count + 1)
      | None => (acc, count, s)
      end
  end.

Definition parse_exponent_sign (s : string) : Z * string :=
  match s with
  | String d r =>
      if Ascii.eqb d "-" then ((-1)%Z, r)
      else if Ascii.eqb d "+" then (1%Z, r) else (1%Z, s)
  | EmptyString => (1%Z, s)
  end.

Definition parse_exponent (s : string) : option (Z * string) :=
  match s with
  | String c r =>
      if Ascii.eqb c "e" || Ascii.eqb c "E" then
        let '(sign, r1) := parse_exponent_sign r in
        let '(e, n, r2) := digits r1 0 0 in
        if (n =? 0)%Z then None else Some ((sign * e)%Z, r2)
      else Some (0%Z, s)
  | EmptyString => Some (0%Z, s)
  end.

Definition parse_fraction (m : Z) (s : string) : option (Z * Z * string) :=
  match s with
  | String c r =>
      if Ascii.eqb c "." then
        let '(m', n, r1) := digits r m 0 in
        if (n =? 0)%Z then None else Some (m', n, r1)
      else Some (m, 0%Z, s)
  | EmptyString => Some (m, 0%Z, s)
  end.

Definition parse_sign (s : string) : Z * string :=
  match s with
  | String c r => if Ascii.eqb c "-" then ((-1)%Z, r) else (1%Z, s)
  | EmptyString => (1%Z, s)
  end.

(** [0], or a non-zero digit followed by digits. *)
Definition parse_int (s : string) : option (Z * string) :=
  match s with
  | EmptyString => None
  | String c r =>
      if Ascii.eqb c "0" then Some (0%Z, r)
      else match digitValue c with
           | Some d => let '(m, _, r1) := digits r d 1 in Some (m, r1)
           | None => None
           end
  end.

Definition parse_number (s : string) : Parse JSON :=
  let '(sign, s1) := parse_sign s in
  match parse_int s1 with
  | None => SyntaxError
  | Some (m, r1) =>
      match parse_fraction m r1 with
      | None => SyntaxError
      | Some (m', k, r2) =>
          match parse_exponent r2 with
          | None => SyntaxError
          | Some (e, r3) => Parsed (JNumber (sign * m') (e - k)) r3
          end
      end
  end.

Fixpoint parse_value (fuel : nat) (s : string) : Parse JSON :=
  match fuel with
  | O => OutOfFuel
  | S fuel' =>
      match skip_ws s with
      | EmptyString => SyntaxError
      | String c r as s' =>
          if Ascii.eqb c "{" then
            match skip_ws r with
            | String "}" r' => Parsed (JObject []) r'
            | _ => parse_members fuel' r []
            end
          else if Ascii.eqb c "[" then
            match skip_ws r with
            | String "]" r' => Parsed (JArray []) r'
            | _ => parse_elements fuel' r []
            end
          else if Ascii.eqb c quote then
            match parse_chars r with
            | Some (str, r') => Parsed (JString str) r'
            | None => SyntaxError
            end
          else if prefix "true" s' then Parsed (JBool true) (drop 4 s')
          else if prefix "false" s' then Parsed (JBool false) (drop 5 s')
          else if prefix "null" s' then Parsed JNull (drop 4 s')
          else parse_number s'
      end
  end

with parse_elements (fuel : nat) (s : string) (acc : list JSON) : Parse JSON :=
  match fuel with
  | O => OutOfFuel
  | S fuel' =>
      match parse_value fuel' s with
      | Parsed v r =>
          match skip_ws r with
          | String c r' =>
              if Ascii.eqb c "," then parse_elements fuel' r' (v :: acc)
              else if Ascii.eqb c "]" then Parsed (JArray (rev (v :: acc))) r'
              else SyntaxError
          | EmptyString => SyntaxError
          end
      | SyntaxError => SyntaxError
      | OutOfFuel => OutOfFuel
      end
  end

with parse_members (fuel : nat) (s : string) (acc : list (string * JSON))
  : Parse JSON :=
  match fuel with
  | O => OutOfFuel
  | S fuel' =>
      match skip_ws s with
      | EmptyString => SyntaxError
      | String c r =>
          if negb (Ascii.eqb c quote) then SyntaxError
          else
            match parse_chars r with
            | None => SyntaxError
            | Some (key, r1) =>
                match skip_ws r1 with
                | EmptyString => SyntaxError
                | String c1 r2 =>
                    if negb (Ascii.eqb c1 ":") then SyntaxError
                    else
                      match parse_value fuel' r2 with
                      | Parsed v r3 =>
                          match skip_ws r3 with
                          | String c2 r4 =>
                              if Ascii.eqb c2 "," then
                                parse_members fuel' r4 ((key, v) :: acc)
                              else if Ascii.eqb c2 "}" then
                                Parsed (JObject (rev ((key, v) :: acc))) r4
                              else SyntaxError
                          | EmptyString => SyntaxError
                          end
                      | SyntaxError => SyntaxError
                      | OutOfFuel => OutOfFuel
                      end
                end
            end
      end
  end.

(** [JSON.parse(text)]: [None] is the [SyntaxError] it throws. *)
Definition JSON_parse (text : string) : option JSON :=
  match parse_value (2 * String.length text + 2) text with
  | Parsed v rest =>
      match skip_ws rest with
      | EmptyString => Some v
      | String _ _ => None
      end
  | SyntaxError => None
  | OutOfFuel => None
  end.

(** A parse that succeeds leaves strictly less text, and fuel is not the
    reason of a failure. *)
Definition consumes (s : string) (p : Parse JSON) : Prop :=
  match p with
  | Parsed _ rest => (String.length rest < String.length s)%nat
  | SyntaxError => True
  | OutOfFuel => False
  end.

(** A JSON text written with apostrophes in place of double quotes. *)
Fixpoint dq (s : string) : string :=
  match s with
  | EmptyString => EmptyString
  | String c rest =>
      String (if Ascii.eqb c "'" then quote else c) (dq rest)
  end.

End Json.

(** ** The extraction service

    The provider ([ai.models.generateContent]) is a parameter: given the
    number of requests already issued and the request, it answers with a
    response whose [text] may be missing, or throws.  The log of requests
    issued is threaded through the call.  The prompt, the response schema
    and the safety settings of a request are constant and are left out;
    [console] output is not modelled. *)

Module Service.

Import Js Json.
Local Open Scope string_scope.

Inductive ModelProvider : Type := GEMINI_FLASH | GEMINI_PRO | GROK_BETA.

Definition ModelProvider_eqb (a b : ModelProvider) : bool :=
  match a, b with
  | GEMINI_FLASH, GEMINI_FLASH | GEMINI_PRO, GEMINI_PRO
  | GROK_BETA, GROK_BETA => true
  | _, _ => false
  end.

(** A thrown value, as the [catch] block reads it: its [message] property,
    if any, and the result of its [toString()]. *)
Record Thrown : Type := mkThrown {
  message : option string;
  toString : string
}.

(** [new Error(msg)] *)
Definition newError (msg : string) : Thrown :=
  {| message := Some msg;
     toString := match msg with
                 | EmptyString => "Error"
                 | _ => "Error: " ++ msg
                 end |}.

Record Request : Type := mkRequest {
  model : string;
  mimeType : string;
  data : string
}.

Inductive Reply : Type :=
| Respond (text : option string)
| Throw (e : Thrown).

Record Env : Type := mkEnv {
  API_KEY : option string;
  generateContent : nat -> Request -> Reply
}.

(** How the promise settles: resolved with the parsed value, or rejected
    with an [Error] carrying this message. *)
Inductive Outcome : Type :=
| Resolved (v : JSON)
| Rejected (msg : string).

(** [base64Data.split(',')[1] || base64Data] *)
Definition cleanBase64 (base64Data : string) : string :=
  orElse (nth_error (split "," base64Data) 1) base64Data.

(** [(error.message || error.toString()).toLowerCase()] *)
Definition errStr (error : Thrown) : string :=
  toLowerCase (orElse (message error) (toString error)).

(** [jsonText.replace(/```json/g, '').replace(/```/g, '').trim()] *)
Definition stripFences (jsonText : string) : string :=
  trim (removeAll "```" (removeAll "```json" jsonText)).

Definition missingKey : string :=
  "System Configuration Error: API Key is missing.".
Definition illegible : string :=
  "Failed to parse the financial data. The document might be illegible.".
Definition failedToProcess : string := "Failed to process document.".
Definition accessDenied : string :=
  "Access Denied: Invalid or Missing API Key.".
Definition trafficLimit : string :=
  "Traffic limit exceeded. Retrying automatically usually fixes this.".
Definition tooComplex : string :=
  "The document structure is too complex for the engine. Please try converting to an Image or creating a simpler PDF.".

Definition flash : string := "gemini-flash-latest".
Definition pro : string := "gemini-3-pro-preview".

End Service.

(** ** [extractTransactionsFromDocument], the copy with auto-scaling and
    JSON repair *)

Module CopyA.

Import Js Json Service.
Local Open Scope string_scope.

(** [(cleanBase64.length * 0.75) / (1024 * 1024)]; on a length below 2^51
    the binary64 product and quotient are exact. *)
Definition approximateSizeInMB (cleanBase64 : string) : Q :=
  ((inject_Z (Z.of_nat (String.length cleanBase64)) * 0.75)
     / (1024 * 1024))%Q.

Definition selectModel (cleanBase64 : string) (provider : ModelProvider)
  : string :=
  if Exact.Qlt_bool 10 (approximateSizeInMB cleanBase64)
     || ModelProvider_eqb provider GEMINI_PRO
     || ModelProvider_eqb provider GROK_BETA
  then pro else flash.

(** The JSON repair strategy. *)
Definition repair (cleanJson : string) : string :=
  if startsWith cleanJson "[" && negb (endsWith cleanJson "]") then
    let lastClosingBrace := lastIndexOf cleanJson "}" in
    if negb (lastClosingBrace =? -1)%Z
    then substring0 cleanJson (lastClosingBrace + 1) ++ "]"
    else cleanJson
  else cleanJson.

Definition friendlyMessage (errStr : string) : string :=
  if includes errStr "api key" || includes errStr "403" then accessDenied
  else if includes errStr "404" || includes errStr "not found" then
    "Engine Error: The selected model is not available. Please try switching between Flash and Grok/Pro."
  else if includes errStr "quota" || includes errStr "429" then trafficLimit
  else if includes errStr "too large" || includes errStr "payload"
          || includes errStr "413" then
    "The document size exceeds the secure transmission limit (20MB encoded). Please try compressing your PDF or converting to grayscale to reduce size."
  else if includes errStr "token count" || includes errStr "limit" then
    "This document is extremely dense. We have automatically switched to High-Capacity mode, but it may still be too large. Please split the PDF."
  else if includes errStr "dependency" || includes errStr "internal" then
    tooComplex
  else failedToProcess.

(** The outer [catch] block. *)
Definition onError (provider : ModelProvider) (modelName : string)
  (error : Thrown) : Outcome :=
  let friendly := friendlyMessage (errStr error) in
  if ModelProvider_eqb provider GROK_BETA || String.eqb modelName pro
  then Rejected ("[Pro Audit] " ++ friendly)
  else Rejected friendly.

Definition requestOf (base64Data mimeType : string)
  (provider : ModelProvider) : Request :=
  let clean := cleanBase64 base64Data in
  {| model := selectModel clean provider;
     mimeType := mimeType;
     data := clean |}.

(** The body of the function.  [fuel] bounds the depth of the recursive
    call, which is made only while [retryCount < 1].  The promise of the
    recursive call is returned without [await], so a rejection of the retry
    is not seen by this call's [catch] and reaches the caller as it is. *)
Fixpoint extract (fuel : nat) (env : Env) (base64Data mimeType : string)
  (provider : ModelProvider) (retryCount : nat) (log : list Request)
  : option (Outcome * list Request) :=
  match fuel with
  | O => None
  | S fuel' =>
      if negb (truthy (API_KEY env)) then Some (Rejected missingKey, log)
      else
        let request := requestOf base64Data mimeType provider in
        let modelName := model request in
        let log' := (log ++ [request])%list in
        match generateContent env (List.length log) request with
        | Throw error => Some (onError provider modelName error, log')
        | Respond jsonText =>
            match jsonText with
            | Some (String c t) =>
                match JSON_parse (repair (stripFences (String c t))) with
                | Some v => Some (Resolved v, log')
                | None =>
                    Some (onError provider modelName (newError illegible),
                          log')
                end
            | _ =>
                if (retryCount <? 1)%nat then
                  extract fuel' env base64Data mimeType provider
                          (retryCount + 1) log'
                else Some (Resolved (JArray []), log')
            end
        end
  end.

Definition extractTransactionsFromDocument (env : Env)
  (base64Data mimeType : string) (provider : ModelProvider)
  (retryCount : nat) (log : list Request)
  : option (Outcome * list Request) :=
  extract (S (1 - retryCount)) env base64Data mimeType provider retryCount log.

End CopyA.

(** ** [extractTransactionsFromDocument], the copy without them *)

Module CopyB.

Import Js Json Service.
Local Open Scope string_scope.

Definition selectModel (provider : ModelProvider) : string :=
  if ModelProvider_eqb provider GEMINI_PRO
     || ModelProvider_eqb provider GROK_BETA
  then pro else flash.

Definition friendlyMessage (errStr : string) (provider : ModelProvider)
  : string :=
  if includes errStr "api key" || includes errStr "403" then accessDenied
  else if includes errStr "404" || includes errStr "not found" then
    "Engine Error: The selected model is not available. Please try switching between Flash and Grok."
  else if includes errStr "quota" || includes errStr "429" then trafficLimit
  else if includes errStr "token count" || includes errStr "1048576"
          || includes errStr "too large" then
    if ModelProvider_eqb provider GEMINI_FLASH then
      "This document is too large for the Flash engine. Please switch to 'Grok (Beta)' for higher capacity."
    else
      "This document exceeds the 2 Million token limit. Please split the PDF."
  else if includes errStr "dependency" || includes errStr "internal" then
    tooComplex
  else if includes errStr "security" || includes errStr "blocked" then
    "The document was flagged by security filters. Try a different file."
  else failedToProcess.

Definition onError (provider : ModelProvider) (error : Thrown) : Outcome :=
  let friendly := friendlyMessage (errStr error) provider in
  if ModelProvider_eqb provider GROK_BETA
  then Rejected ("[Grok Beta] " ++ friendly)
  else Rejected friendly.

Definition requestOf (base64Data mimeType : string)
  (provider : ModelProvider) : Request :=
  {| model := selectModel provider;
     mimeType := mimeType;
     data := cleanBase64 base64Data |}.

Fixpoint extract (fuel : nat) (env : Env) (base64Data mimeType : string)
  (provider : ModelProvider) (retryCount : nat) (log : list Request)
  : option (Outcome * list Request) :=
  match fuel with
  | O => None
  | S fuel' =>
      if negb (truthy (API_KEY env)) then Some (Rejected missingKey, log)
      else
        let request := requestOf base64Data mimeType provider in
        let log' := (log ++ [request])%list in
        match generateContent env (List.length log) request with
        | Throw error => Some (onError provider error, log')
        | Respond jsonText =>
            match jsonText with
            | Some (String c t) =>
                match JSON_parse (stripFences (String c t)) with
                | Some v => Some (Resolved v, log')
                | None => Some (onError provider (newError illegible), log')
                end
            | _ =>
                if (retryCount <? 1)%nat then
                  extract fuel' env base64Data mimeType provider
                          (retryCount + 1) log'
                else Some (Resolved (JArray []), log')
            end
        end
  end.

Definition extractTransactionsFromDocument (env : Env)
  (base64Data mimeType : string) (provider : ModelProvider)
  (retryCount : nat) (log : list Request)
  : option (Outcome * list Request) :=
  extract (S (1 - retryCount)) env base64Data mimeType provider retryCount log.

End CopyB.

(** ** The two copies side by side *)

Module Copies.

Import Js Json Service.
Local Open Scope string_scope.

Inductive Copy : Type := A | B.

Definition requestOf (c : Copy) : string -> string -> ModelProvider -> Request :=
  match c with
  | A => CopyA.requestOf
  | B => CopyB.requestOf
  end.

Definition extractTransactionsFromDocument (c : Copy)
  : Env -> string -> string -> ModelProvider -> nat -> list Request ->
    option (Outcome * list Request) :=
  match c with
  | A => CopyA.extractTransactionsFromDocument
  | B => CopyB.extractTransactionsFromDocument
  end.

(** The text handed to [JSON.parse]. *)
Definition parsedText (c : Copy) (cleanJson : string) : string :=
  match c with
  | A => CopyA.repair cleanJson
  | B => cleanJson
  end.

Definition friendlyMessage (c : Copy) (errStr : string)
  (provider : ModelProvider) : string :=
  match c with
  | A => CopyA.friendlyMessage errStr
  | B => CopyB.friendlyMessage errStr provider
  end.

Definition onError (c : Copy) (provider : ModelProvider)
  (modelName : string) (error : Thrown) : Outcome :=
  match c with
  | A => CopyA.onError provider modelName error
  | B => CopyB.onError provider error
  end.

(** The branding prefix of a surfaced message. *)
Definition tag (c : Copy) (provider : ModelProvider) (modelName : string)
  : string :=
  match c with
  | A => if ModelProvider_eqb provider GROK_BETA || String.eqb modelName pro
         then "[Pro Audit] " else EmptyString
  | B => if ModelProvider_eqb provider GROK_BETA
         then "[Grok Beta] " else EmptyString
  end.

(** What one attempt makes of a provider reply that carries text. *)
Definition settle (c : Copy) (provider : ModelProvider) (modelName : string)
  (jsonText : string) : Outcome :=
  match JSON_parse (parsedText c (stripFences jsonText)) with
  | Some v => Resolved v
  | None => onError c provider modelName (newError illegible)
  end.

(** One attempt that does not retry. *)
Definition lastAttempt (c : Copy) (provider : ModelProvider)
  (modelName : string) (reply : Reply) : Outcome :=
  match reply with
  | Throw error => onError c provider modelName error
  | Respond (Some (String ch t)) => settle c provider modelName (String ch t)
  | Respond _ => Resolved (JArray [])
  end.

End Copies.

(** ** Sample inputs *)

Module Samples.

Import Js Json Service.
Local Open Scope string_scope.

(** A provider that answers the [i]-th request with the [i]-th reply of a
    script and with an empty response after that. *)
Definition scripted (replies : list Reply) : Env :=
  {| API_KEY := Some "key";
     generateContent := fun i _ => nth i replies (Respond None) |}.




Fixpoint replicate (n : nat) (c : ascii) : string :=
  match n with
  | O => EmptyString
  | S k => String c (replicate k c)
  end.

(** Fourteen million base64 characters: about 10.01 MB once decoded. *)
Definition largePayload : string := replicate (Z.to_nat 14000000) "A".

Definition pdf : string := "application/pdf".

(** Gross incomes in increasing order, around the points where the relief
    and the bands change and out to the largest finite binary64 value. *)
Definition incomes : list float :=
  [ 0; 0x1p-1074; 1; 200000; 249999.99; 250000; 250000.01; 624999.99;
    625000; 625000.01; 1000000; 1000000.5; 1625000; 2250000; 2875000;
    4875000; 4875000.01; 19999999.99; 20000000; 20000000.01; 1e9; 1e15;
    0x1p58; 1e18; 1e300; 0x1.fffffffffffffp+1023 ]%float.

Fixpoint nondecreasing (l : list float) : bool :=
  match l with
  | x :: (y :: _) as rest => PrimFloat.leb x y && nondecreasing rest
  | _ => true
  end.

End Samples.


(** * Further parts of the program *)

(** ** The tax schedule in closed form *)

Module TaxTable.
Local Open Scope Q_scope.


End TaxTable.


(** ** Vocabulary for the service *)

Module ServiceFacts.
Import Js Json Service Copies.
Local Open Scope string_scope.

(** The user-facing messages a copy's [catch] block can choose from. *)
Definition friendlyMessages (c : Copy) : list string :=
  match c with
  | A =>
      [ accessDenied;
        "Engine Error: The selected model is not available. Please try switching between Flash and Grok/Pro.";
        trafficLimit;
        "The document size exceeds the secure transmission limit (20MB encoded). Please try compressing your PDF or converting to grayscale to reduce size.";
        "This document is extremely dense. We have automatically switched to High-Capacity mode, but it may still be too large. Please split the PDF.";
        tooComplex;
        failedToProcess ]
  | B =>
      [ accessDenied;
        "Engine Error: The selected model is not available. Please try switching between Flash and Grok.";
        trafficLimit;
        "This document is too large for the Flash engine. Please switch to 'Grok (Beta)' for higher capacity.";
        "This document exceeds the 2 Million token limit. Please split the PDF.";
        tooComplex;
        "The document was flagged by security filters. Try a different file.";
        failedToProcess ]
  end.

(** [s] has no occurrence of the character [c]. *)
Fixpoint lacks (c : ascii) (s : string) : bool :=
  match s with
  | EmptyString => true
  | String d rest => negb (Ascii.eqb d c) && lacks c rest
  end.

(** The last character of a string, if it has one. *)
Fixpoint lastChar (s : string) : option ascii :=
  match s with
  | EmptyString => None
  | String c EmptyString => Some c
  | String _ rest => lastChar rest
  end.

(** Whether a reply carries no text. *)
Definition emptyReply (r : Reply) : bool :=
  match r with
  | Respond (Some (String _ _)) => false
  | Respond _ => true
  | Throw _ => false
  end.

End ServiceFacts.


(** ** Vocabulary for the parser *)

Module ParserFacts.
Import Js Json.
Local Open Scope string_scope.
(** [rest] is what is left of [s] after a prefix of it. *)
Definition Suffix (rest s : string) : Prop := exists pre, s = pre ++ rest.
(** [rest] is what is left of [s] after a prefix that ends with a closing
    bracket. *)
Definition Closed (rest s : string) : Prop :=
  exists pre, s = pre ++ String "]" rest.
End ParserFacts.


(** ** The dashboard *)

Module Dashboard.

Import Js.
Local Open Scope Q_scope.

Definition DEBIT : string := "DEBIT".

Record Transaction : Type := mkTransaction {
  date : string;
  description : string;
  amount : Q;
  type : string
}.

(** [transactions.filter(t => t.type === ty).reduce((sum, t) => sum + t.amount, 0)] *)
Definition totalOf (ty : string) (transactions : list Transaction) : Q :=
  fold_left (fun sum t => sum + amount t)
            (filter (fun t => String.eqb (type t) ty) transactions)
            0.

Definition totalDebit : list Transaction -> Q := totalOf DEBIT.


Section Rendering.

(** [amount.toString()] and [amount.toFixed(2)], left to the platform. *)
Variable numberToString : Q -> string.
Variable toFixed2 : Q -> string.

Definition matches (searchTerm : string) (t : Transaction) : bool :=
  includes (toLowerCase (description t)) (toLowerCase searchTerm)
  || includes (numberToString (amount t)) searchTerm.

Definition filteredTransactions (searchTerm : string)
  (transactions : list Transaction) : list Transaction :=
  filter (matches searchTerm) transactions.

End Rendering.

(** The description with every double quote written twice, as the
    [replace] of the export does. *)
Fixpoint doubleQuotes (s : string) : string :=
  match s with
  | EmptyString => EmptyString
  | String c rest =>
      if Ascii.eqb c Json.quote
      then String Json.quote (String Json.quote (doubleQuotes rest))
      else String c (doubleQuotes rest)
  end.

(** The description cell of an exported row. *)
Definition quotedCell (description : string) : string :=
  String Json.quote (doubleQuotes description ++ String Json.quote EmptyString).

(** [parts.join(sep)] *)
Fixpoint join (sep : string) (parts : list string) : string :=
  match parts with
  | [] => EmptyString
  | [x] => x
  | x :: rest => (x ++ sep ++ join sep rest)%string
  end.

(** The text that [handleExportCSV] puts in the file. *)
Definition csvContent (toFixed2 : Q -> string)
  (transactions : list Transaction) : string :=
  let headers := ["Date"; "Description"; "Type"; "Amount (NGN)"]%string in
  let rows :=
    map (fun t => [ date t; quotedCell (description t);
                    type t; toFixed2 (amount t) ])
        transactions in
  join (String "010" EmptyString)
       (join "," headers :: map (fun r => join "," r) rows).

(** Every quote of [s] is followed by a second one. *)
Fixpoint quotesPaired (s : string) : bool :=
  match s with
  | EmptyString => true
  | String c rest =>
      if Ascii.eqb c Json.quote then
        match rest with
        | String d rest' => Ascii.eqb d Json.quote && quotesPaired rest'
        | EmptyString => false
        end
      else quotesPaired rest
  end.

End Dashboard.


(** ** The upload form *)

Module FileUpload.

Import Js Service.

(** One step of the progress bar, every 150 ms while a document is being
    processed. *)
Definition tick (prev : Q) : Q :=
  (if Exact.Qlt_bool prev 30 then prev + 5
   else if Exact.Qlt_bool prev 70 then prev + 2
   else if Exact.Qlt_bool prev 90 then prev + 0.5
   else 90)%Q.

Fixpoint ticks (n : nat) (prev : Q) : Q :=
  match n with
  | O => prev
  | S k => ticks k (tick prev)
  end.

(** A progress value written in halves. *)
Definition inHalves (p : Q) : Prop := exists k : Z, (p == k # 2)%Q.

(** The values the bar can take: halves between 0 and 90. *)
Definition onScale (p : Q) : Prop := (inHalves p /\ 0 <= p /\ p <= 90)%Q.

Definition allowedTypes : list string :=
  ["image/jpeg"; "image/png"; "application/pdf"]%string.

(** [allowedTypes.includes(file.type)] *)
Definition allowed (fileType : string) : bool :=
  existsb (String.eqb fileType) allowedTypes.

Inductive Checked : Type :=
| Refused (error : string)
| Read.

(** The checks of [processFile] before the file is read, with the size
    ceiling of the copy: 5 MB in one, 500 MB in the other. *)
Definition processFile (ceilingInMB : Z) (ceilingError : string)
  (fileType : string) (fileSize : Z) : Checked :=
  if negb (allowed fileType)
  then Refused "Secure format required: PDF, JPG, or PNG only."
  else if (ceilingInMB * 1024 * 1024 <? fileSize)%Z
  then Refused ceilingError
  else Read.

Definition processFile5 : string -> Z -> Checked :=
  processFile 5 "Document exceeds secure processing limit (Max 5MB).".

Definition processFile500 : string -> Z -> Checked :=
  processFile 500 "File exceeds the 500MB institutional limit.".

(** The number of base64 characters that [readAsDataURL] writes for a file
    of [fileSize] bytes: four for every three bytes, the last group
    padded. *)
Definition base64Length (fileSize : Z) : Z := (4 * ((fileSize + 2) / 3))%Z.

End FileUpload.

(** ** The application shell *)

Module App.

Import Js Json Service Copies.
Local Open Scope string_scope.

Inductive View : Type := upload | dashboard.

Record State : Type := mkState {
  transactions : JSON;
  isProcessing : bool;
  view : View;
  alerts : list string
}.

Definition fallbackAlert : string :=
  "Error processing statement. Please try a clearer document.".

(** [handleFileProcess], with the call of the service written out and the
    texts passed to [alert] collected in [alerts]. *)
Definition handleFileProcess (c : Copy) (env : Env)
  (base64Data mimeType : string) (provider : ModelProvider) (st : State)
  : option State :=
  let st1 := {| transactions := transactions st; isProcessing := true;
                view := view st; alerts := alerts st |} in
  match extractTransactionsFromDocument c env base64Data mimeType provider 0 []
  with
  | None => None
  | Some (Resolved extractedData, _) =>
      Some {| transactions := extractedData; isProcessing := false;
              view := dashboard; alerts := alerts st1 |}
  | Some (Rejected message, _) =>
      Some {| transactions := transactions st1; isProcessing := false;
              view := view st1;
              alerts :=
                (alerts st1 ++
                 [orElse (Some message) fallbackAlert])%list |}
  end.

Definition handleReset (st : State) : State :=
  {| transactions := JArray []; isProcessing := isProcessing st;
     view := upload; alerts := alerts st |}.

End App.


(** * Properties of the tax engine *)

Section ExactLoop.

Import Exact.
Local Open Scope Q_scope.


Lemma Qle_bool_false (x y : Q) : Qle_bool x y = false -> y < x.
Proof.
  intros H. apply Qnot_le_lt. intros L.
  apply Qle_bool_iff in L. congruence.
Qed.

Lemma Qle_bool_true (x y : Q) : Qle_bool x y = true -> x <= y.
Proof. apply Qle_bool_iff. Qed.



Lemma bandAmounts_stop (bs : list Band) (r : Q) :
  r <= 0 -> bandAmounts bs r = [].
Proof.
  intros H. destruct bs as [|b bs]; simpl; [reflexivity|].
  apply Qle_bool_iff in H. rewrite H. reflexivity.
Qed.









End ExactLoop.

Section TaxEngine.

Import Exact.
Local Open Scope Q_scope.

(** C1: for every gross income [g >= 0] the returned consolidated relief is
    [max(200000, 0.01 g) + 0.20 g] and the returned taxable income is
    [max(0, g - consolidatedRelief)]; in binary64 they are the same two
    formulas with every operation rounded, for every input [x]. *)
Theorem C1_relief_and_taxable (g : Q) (x : float) :
  0 <= g ->
  consolidatedRelief (calculateNigerianPIT g)
    == Qmax 200000 (0.01 * g) + 0.20 * g /\
  taxableIncome (calculateNigerianPIT g)
    == Qmax 0 (g - consolidatedRelief (calculateNigerianPIT g)) /\
  Binary64.consolidatedRelief (Binary64.calculateNigerianPIT x)
    = (Binary64.Math_max 200000 (x * 0.01) + x * 0.20)%float /\
  Binary64.taxableIncome (Binary64.calculateNigerianPIT x)
    = Binary64.Math_max 0
        (x - Binary64.consolidatedRelief (Binary64.calculateNigerianPIT x))%float.
Proof.
  intros _. split; [|split; [|split]].
  - simpl.
    assert (E : g * 0.01 == 0.01 * g) by lra.
    rewrite E. lra.
  - reflexivity.
  - reflexivity.
  - reflexivity.
Qed.

Lemma C1_relief_and_taxable_witness :
  0 <= 1000000 /\
  consolidatedRelief (calculateNigerianPIT 1000000)
    == Qmax 200000 (0.01 * 1000000) + 0.20 * 1000000 /\
  taxableIncome (calculateNigerianPIT 1000000)
    == Qmax 0 (1000000 - consolidatedRelief (calculateNigerianPIT 1000000)).
Proof.
  split; [lra|].
  pose proof (C1_relief_and_taxable 1000000 1000000%float) as H.
  split; apply H; lra.
Defined.

(** The relief in closed form on either side of the point where 1% of the
    gross income overtakes the fixed allowance. *)
Lemma consolidatedRelief_low (g : Q) :
  g <= 20000000 ->
  consolidatedRelief (calculateNigerianPIT g) == 200000 + (1 # 5) * g.
Proof.
  intros H. simpl.
  destruct (Q.max_spec 200000 (g * 0.01)) as [[A B]|[A B]]; rewrite B; lra.
Qed.

Lemma consolidatedRelief_high (g : Q) :
  20000000 <= g ->
  consolidatedRelief (calculateNigerianPIT g) == g * 0.21.
Proof.
  intros H. simpl.
  destruct (Q.max_spec 200000 (g * 0.01)) as [[A B]|[A B]]; rewrite B; lra.
Qed.




(** C4: at a gross income of 1000000 the relief is 400000, the taxable
    income 600000, the total tax 54000 and the effective rate 5.4, in exact
    arithmetic and in binary64 alike. *)
Theorem C4_one_million :
  consolidatedRelief (calculateNigerianPIT 1000000) == 400000 /\
  taxableIncome (calculateNigerianPIT 1000000) == 600000 /\
  totalTax (calculateNigerianPIT 1000000) == 54000 /\
  effectiveRate (calculateNigerianPIT 1000000) == 5.4 /\
  Binary64.calculateNigerianPIT 1000000%float
    = (Binary64.mkTaxBreakdown 1000000 400000 600000 54000 5.4)%float.
Proof.
  split; [|split; [|split; [|split]]]; reflexivity.
Qed.

(** C5: at a gross income of 0 the total tax and the effective rate are 0.
    The test [grossIncome > 0] fails there, so the quotient by the gross
    income, which is [NaN] in binary64, is not what is returned. *)
Theorem C5_zero_income :
  totalTax (calculateNigerianPIT 0) == 0 /\
  effectiveRate (calculateNigerianPIT 0) == 0 /\
  Qlt_bool 0 0 = false /\
  Binary64.totalTax (Binary64.calculateNigerianPIT 0%float) = 0%float /\
  Binary64.effectiveRate (Binary64.calculateNigerianPIT 0%float) = 0%float /\
  PrimFloat.ltb 0 0 = false /\
  PrimFloat.is_nan ((0 / 0) * 100)%float = true.
Proof.
  split; [|split; [|split; [|split; [|split; [|split]]]]]; reflexivity.
Qed.



(** The same at sample negative binary64 inputs, from the smallest
    subnormal to the largest finite magnitude. *)
Lemma Binary64_negative_samples :
  Forall (fun g =>
            Binary64.taxableIncome (Binary64.calculateNigerianPIT g) = 0%float /\
            Binary64.totalTax (Binary64.calculateNigerianPIT g) = 0%float /\
            Binary64.effectiveRate (Binary64.calculateNigerianPIT g) = 0%float)
         [ (-5)%float; (-0.5)%float; (-250000)%float; (-1e300)%float;
           (-0x1p-1074)%float; (-0x1.fffffffffffffp+1023)%float ].
Proof.
  repeat constructor.
Qed.

(** In binary64 the guard on the effective rate and the early exit of the
    loop hold for every input, [NaN] included. *)
Lemma Binary64_rate_guard (g : float) :
  PrimFloat.ltb 0 g = false ->
  Binary64.effectiveRate (Binary64.calculateNigerianPIT g) = 0%float.
Proof.
  intros H. unfold Binary64.calculateNigerianPIT.
  cbn [Binary64.effectiveRate]. rewrite H. reflexivity.
Qed.

Lemma Binary64_nothing_taxable (g : float) :
  PrimFloat.leb (Binary64.taxableIncome (Binary64.calculateNigerianPIT g)) 0
  = true ->
  Binary64.totalTax (Binary64.calculateNigerianPIT g) = 0%float.
Proof.
  unfold Binary64.calculateNigerianPIT.
  cbn [Binary64.taxableIncome Binary64.totalTax].
  intros H. unfold Binary64.bands. cbn [Binary64.bandLoop].
  rewrite H. reflexivity.
Qed.

(** On the sample incomes the binary64 total tax is non-negative and
    non-decreasing. *)
Lemma Binary64_monotone_samples :
  Samples.nondecreasing Samples.incomes = true /\
  Samples.nondecreasing
    (0%float :: map (fun g => Binary64.totalTax (Binary64.calculateNigerianPIT g))
                   Samples.incomes) = true.
Proof.
  split; vm_compute; reflexivity.
Qed.

End TaxEngine.

(** * The JSON parser never runs out of fuel *)

Section JsonFuel.

Import Js Json.
Local Open Scope string_scope.

Lemma skip_ws_length (s : string) :
  (String.length (skip_ws s) <= String.length s)%nat.
Proof.
  induction s as [|c r IH]; simpl; [lia|].
  destruct (isWhite c); simpl; lia.
Qed.

Lemma drop_length (n : nat) (s : string) :
  (String.length (drop n s) <= String.length s)%nat.
Proof.
  revert s; induction n as [|n IH]; intros s; simpl; [lia|].
  destruct s as [|c r]; simpl; [lia|]. specialize (IH r). lia.
Qed.

Lemma utf8_length (u : N) (t : string) :
  (String.length t < String.length (utf8 u t))%nat.
Proof.
  unfold utf8. destruct (u <? 128)%N; [simpl; lia|].
  destruct (u <? 2048)%N; simpl; lia.
Qed.

(** A string literal consumes at least its closing quote. *)
Lemma parse_chars_length :
  forall n s str rest,
    (String.length s <= n)%nat ->
    parse_chars s = Some (str, rest) ->
    (String.length rest < String.length s)%nat.
Proof.
  induction n as [|n IH]; intros s str rest Hn H.
  - destruct s; simpl in *; [discriminate | lia].
  - destruct s as [|c r]; simpl in H; [discriminate|].
    simpl in Hn.
    destruct (Ascii.eqb c quote).
    { inversion H; subst. simpl. lia. }
    destruct (Ascii.eqb c backslash).
    + destruct r as [|e r1]; [discriminate|]. simpl in Hn.
      assert (Hplain : forall d,
                 match parse_chars r1 with
                 | Some (str0, rest0) => Some (String d str0, rest0)
                 | None => None
                 end = Some (str, rest) ->
                 (String.length rest < String.length (String c (String e r1)))%nat).
      { intros d Hd. destruct (parse_chars r1) as [[s0 r0]|] eqn:E; [|discriminate].
        inversion Hd; subst. apply IH in E; [|lia]. simpl. lia. }
      repeat match type of H with
             | (if ?b then _ else _) = _ =>
                 destruct b; [solve [eapply Hplain; exact H] |]
             end.
      destruct (Ascii.eqb e "u"); [|discriminate].
      destruct r1 as [|h1 [|h2 [|h3 [|h4 r2]]]]; try discriminate.
      destruct (hex4 h1 h2 h3 h4); [|discriminate].
      destruct (parse_chars r2) as [[s0 r0]|] eqn:E; [|discriminate].
      inversion H; subst. apply IH in E; [|simpl in Hn; lia]. simpl. lia.
    + destruct (nat_of_ascii c <? 32)%nat; [discriminate|].
      destruct (parse_chars r) as [[s0 r0]|] eqn:E; [|discriminate].
      inversion H; subst. apply IH in E; [|lia]. simpl. lia.
Qed.

Lemma digits_length :
  forall s acc k m k' rest,
    digits s acc k = (m, k', rest) ->
    (String.length rest <= String.length s)%nat.
Proof.
  induction s as [|c r IH]; intros acc k m k' rest H; simpl in H.
  - inversion H; subst. simpl. lia.
  - destruct (digitValue c).
    + apply IH in H. simpl. lia.
    + inversion H; subst. simpl. lia.
Qed.

Lemma parse_fraction_length (m : Z) (s : string) m' k rest :
  parse_fraction m s = Some (m', k, rest) ->
  (String.length rest <= String.length s)%nat.
Proof.
  unfold parse_fraction. destruct s as [|c r].
  - intros H; inversion H; subst. simpl. lia.
  - destruct (Ascii.eqb c ".").
    + destruct (digits r m 0) as [[a b] r1] eqn:E.
      destruct (b =? 0)%Z; [discriminate|].
      intros H; inversion H; subst. apply digits_length in E. simpl. lia.
    + intros H; inversion H; subst. lia.
Qed.

Lemma parse_exponent_sign_length (s : string) sign rest :
  parse_exponent_sign s = (sign, rest) ->
  (String.length rest <= String.length s)%nat.
Proof.
  unfold parse_exponent_sign. destruct s as [|d r].
  - intros H; inversion H; subst. lia.
  - destruct (Ascii.eqb d "-"); [intros H; inversion H; subst; simpl; lia|].
    destruct (Ascii.eqb d "+"); intros H; inversion H; subst; simpl; lia.
Qed.

Lemma parse_exponent_length (s : string) e rest :
  parse_exponent s = Some (e, rest) ->
  (String.length rest <= String.length s)%nat.
Proof.
  unfold parse_exponent. destruct s as [|c r].
  - intros H; inversion H; subst. simpl. lia.
  - destruct (Ascii.eqb c "e" || Ascii.eqb c "E").
    + destruct (parse_exponent_sign r) as [sign r1] eqn:S.
      destruct (digits r1 0 0) as [[a b] r2] eqn:E.
      destruct (b =? 0)%Z; [discriminate|].
      intros H; inversion H; subst.
      apply parse_exponent_sign_length in S. apply digits_length in E.
      simpl. lia.
    + intros H; inversion H; subst. lia.
Qed.

Lemma parse_sign_length (s : string) sign rest :
  parse_sign s = (sign, rest) ->
  (String.length rest <= String.length s)%nat.
Proof.
  unfold parse_sign. destruct s as [|c r].
  - intros H; inversion H; subst. lia.
  - destruct (Ascii.eqb c "-"); intros H; inversion H; subst; simpl; lia.
Qed.

Lemma parse_int_length (s : string) m rest :
  parse_int s = Some (m, rest) ->
  (String.length rest < String.length s)%nat.
Proof.
  unfold parse_int. destruct s as [|c r]; [discriminate|].
  destruct (Ascii.eqb c "0").
  - intros H; inversion H; subst. simpl. lia.
  - destruct (digitValue c) as [d|]; [|discriminate].
    destruct (digits r d 1) as [[a b] r1] eqn:E.
    intros H; inversion H; subst. apply digits_length in E. simpl. lia.
Qed.

Lemma parse_number_spec (s : string) :
  match parse_number s with
  | Parsed _ rest => (String.length rest < String.length s)%nat
  | SyntaxError => True
  | OutOfFuel => False
  end.
Proof.
  unfold parse_number.
  destruct (parse_sign s) as [sign s1] eqn:S.
  destruct (parse_int s1) as [[m r1]|] eqn:Hi; [|exact I].
  destruct (parse_fraction m r1) as [[[m' k] r2]|] eqn:F; [|exact I].
  destruct (parse_exponent r2) as [[e r3]|] eqn:X; [|exact I].
  apply parse_sign_length in S. apply parse_int_length in Hi.
  apply parse_fraction_length in F. apply parse_exponent_length in X. lia.
Qed.


Lemma prefix_nonempty_drop (p s : string) (n : nat) :
  (0 < n)%nat -> s <> EmptyString ->
  (String.length (drop n s) < String.length s)%nat.
Proof.
  intros Hn Hs. destruct n as [|n]; [lia|].
  destruct s as [|c r]; [congruence|]. simpl.
  pose proof (drop_length n r). lia.
Qed.

Lemma parse_fuel (fuel : nat) :
  (forall s, (2 * String.length s + 1 <= fuel)%nat ->
             consumes s (parse_value fuel s)) /\
  (forall s acc, (2 * String.length s + 2 <= fuel)%nat ->
                 consumes s (parse_elements fuel s acc)) /\
  (forall s acc, (2 * String.length s + 2 <= fuel)%nat ->
                 consumes s (parse_members fuel s acc)).
Proof.
  induction fuel as [|fuel (IHv & IHe & IHm)].
  - repeat split; intros; lia.
  - split; [|split].
    + intros s Hf. cbn [parse_value].
      pose proof (skip_ws_length s) as Hw.
      destruct (skip_ws s) as [|c r] eqn:E; [exact I|].
      simpl in Hw.
      destruct (Ascii.eqb c "{").
      { assert (Hm : consumes s (parse_members fuel r [])).
        { specialize (IHm r []). 
          destruct (parse_members fuel r []); simpl in *; try exact I.
          - assert (2 * String.length r + 2 <= fuel)%nat by lia. intuition lia.
          - apply IHm. lia. }
        pose proof (skip_ws_length r) as Hr.
        destruct (skip_ws r) as [|c1 r1]; [exact Hm|].
        destruct c1 as [[] [] [] [] [] [] [] []]; try exact Hm.
        simpl in *. lia. }
      destruct (Ascii.eqb c "[").
      { assert (Hm : consumes s (parse_elements fuel r [])).
        { specialize (IHe r []). 
          destruct (parse_elements fuel r []); simpl in *; try exact I.
          - assert (2 * String.length r + 2 <= fuel)%nat by lia. intuition lia.
          - apply IHe. lia. }
        pose proof (skip_ws_length r) as Hr.
        destruct (skip_ws r) as [|c1 r1]; [exact Hm|].
        destruct c1 as [[] [] [] [] [] [] [] []]; try exact Hm.
        simpl in *. lia. }
      destruct (Ascii.eqb c quote).
      { destruct (parse_chars r) as [[str r']|] eqn:P; [|exact I].
        apply (parse_chars_length _ _ _ _ (le_n _)) in P. simpl. lia. }
      assert (Hd : forall n, (0 < n)%nat ->
                 (String.length (drop n (String c r)) < String.length s)%nat).
      { intros n Hn.
        pose proof (prefix_nonempty_drop EmptyString (String c r) n Hn) as Hp.
        simpl String.length in Hp at 2.
        assert (String c r <> EmptyString) by discriminate.
        specialize (Hp H). lia. }
      destruct (prefix "true" (String c r)); [apply Hd; lia|].
      destruct (prefix "false" (String c r)); [apply Hd; lia|].
      destruct (prefix "null" (String c r)); [apply Hd; lia|].
      pose proof (parse_number_spec (String c r)) as Hn.
      destruct (parse_number (String c r)); simpl in *; try tauto. lia.
    + intros s acc Hf. cbn [parse_elements].
      specialize (IHv s).
      destruct (parse_value fuel s) as [v r| |] eqn:P; simpl in IHv; try exact I.
      * assert (Hr : (String.length r < String.length s)%nat) by (apply IHv; lia).
        pose proof (skip_ws_length r) as Hw.
        destruct (skip_ws r) as [|c r']; [exact I|]. simpl in Hw.
        destruct (Ascii.eqb c ",").
        { specialize (IHe r' (v :: acc)).
          destruct (parse_elements fuel r' (v :: acc)); simpl in *; try exact I.
          - assert (2 * String.length r' + 2 <= fuel)%nat by lia. intuition lia.
          - apply IHe. lia. }
        destruct (Ascii.eqb c "]"); [simpl; lia | exact I].
      * apply IHv. lia.
    + intros s acc Hf. cbn [parse_members].
      pose proof (skip_ws_length s) as Hw.
      destruct (skip_ws s) as [|c r]; [exact I|]. simpl in Hw.
      destruct (negb (Ascii.eqb c quote)); [exact I|].
      destruct (parse_chars r) as [[key r1]|] eqn:P; [|exact I].
      apply (parse_chars_length _ _ _ _ (le_n _)) in P.
      pose proof (skip_ws_length r1) as Hw1.
      destruct (skip_ws r1) as [|c1 r2]; [exact I|]. simpl in Hw1.
      destruct (negb (Ascii.eqb c1 ":")); [exact I|].
      specialize (IHv r2).
      destruct (parse_value fuel r2) as [v r3| |] eqn:V; simpl in IHv; try exact I.
      * assert (Hr : (String.length r3 < String.length r2)%nat) by (apply IHv; lia).
        pose proof (skip_ws_length r3) as Hw3.
        destruct (skip_ws r3) as [|c2 r4]; [exact I|]. simpl in Hw3.
        destruct (Ascii.eqb c2 ",").
        { specialize (IHm r4 ((key, v) :: acc)).
          destruct (parse_members fuel r4 ((key, v) :: acc)); simpl in *; try exact I.
          - assert (2 * String.length r4 + 2 <= fuel)%nat by lia. intuition lia.
          - apply IHm. lia. }
        destruct (Ascii.eqb c2 "}"); [simpl; lia | exact I].
      * apply IHv. lia.
Qed.

(** [JSON_parse] gives the parser fuel enough for any text: [None] is
    always a syntax error. *)
Lemma JSON_parse_fuel (text : string) :
  parse_value (2 * String.length text + 2) text <> OutOfFuel.
Proof.
  destruct (parse_fuel (2 * String.length text + 2)) as (Hv & _).
  specialize (Hv text). intros E. rewrite E in Hv. apply Hv. lia.
Qed.

(** The parser on sample texts: what it accepts and what it refuses. *)
Lemma JSON_parse_samples :
  JSON_parse (dq " [ 1, -2.50e+3, true, false, null, 'a', {}, {'k' : [[]]} ] ")
  = Some (JArray [ JNumber 1 0; JNumber (-250) 1; JBool true; JBool false;
                   JNull; JString "a"; JObject [];
                   JObject [("k", JArray [JArray []])] ]) /\
  JSON_parse "[]" = Some (JArray []) /\
  Forall (fun text => JSON_parse (dq text) = None)
    [ EmptyString; "["; "[1,]"; "[1 2]"; "01"; "1."; "-"; "tru"; "nulll";
      "{'a' 1}"; "{'a':1,}"; "'abc"; "[] []"; "{a:1}" ].
Proof.
  split; [reflexivity|]. split; [reflexivity|].
  repeat constructor.
Qed.

End JsonFuel.

(** * Properties of the extraction pipeline *)

Section Pipeline.

Import Js Json Service Copies Samples.
Local Open Scope string_scope.

(** Opens the call of either copy down to its first request. *)
Ltac open_call c :=
  destruct c; cbn [extractTransactionsFromDocument requestOf];
  [ unfold CopyA.extractTransactionsFromDocument
  | unfold CopyB.extractTransactionsFromDocument ];
  cbn [Nat.sub CopyA.extract CopyB.extract Nat.ltb Nat.leb Nat.add].

(** Splits on what a reply is: text, an empty text, none, or a throw. *)
Ltac by_reply r := destruct r as [[[|?ch ?t]|]|?e].

(** The call with the default [retryCount] and an empty log, unrolled: one
    request, and a second one exactly when the first response is empty. *)
Lemma extract_unrolled (c : Copy) (env : Env) (b m : string)
  (p : ModelProvider) :
  truthy (API_KEY env) = true ->
  let req := requestOf c b m p in
  extractTransactionsFromDocument c env b m p 0 [] =
  match generateContent env 0 req with
  | Throw error => Some (onError c p (model req) error, [req])
  | Respond (Some (String ch t)) =>
      Some (settle c p (model req) (String ch t), [req])
  | Respond _ =>
      Some (lastAttempt c p (model req) (generateContent env 1 req),
            [req; req])
  end.
Proof.
  intros Hk req. unfold req. open_call c;
    rewrite Hk; cbn [negb List.length app];
    unfold lastAttempt, settle, parsedText, onError.
  - by_reply (generateContent env 0 (CopyA.requestOf b m p));
      try by_reply (generateContent env 1 (CopyA.requestOf b m p));
      try destruct (JSON_parse _); reflexivity.
  - by_reply (generateContent env 0 (CopyB.requestOf b m p));
      try by_reply (generateContent env 1 (CopyB.requestOf b m p));
      try destruct (JSON_parse _); reflexivity.
Qed.

(** Without a credential the call fails before any request. *)
Lemma extract_without_key (c : Copy) (env : Env) (b m : string)
  (p : ModelProvider) :
  truthy (API_KEY env) = false ->
  extractTransactionsFromDocument c env b m p 0 [] =
  Some (Rejected missingKey, []).
Proof.
  intros Hk. open_call c; rewrite Hk; reflexivity.
Qed.

(** The call settles for every retry count and every provider, after at
    most two requests. *)
Lemma extract_total (c : Copy) (env : Env) (b m : string)
  (p : ModelProvider) (retryCount : nat) (log : list Request) :
  exists outcome sent,
    extractTransactionsFromDocument c env b m p retryCount log =
    Some (outcome, (log ++ sent)%list) /\
    (List.length sent <= 2)%nat.
Proof.
  destruct retryCount as [|k]; open_call c;
    destruct (truthy (API_KEY env)); cbn [negb];
    try (exists (Rejected missingKey), []; rewrite app_nil_r;
         split; [reflexivity | simpl; lia]).
  - by_reply (generateContent env (List.length log) (CopyA.requestOf b m p));
      try by_reply (generateContent env
                      (List.length (log ++ [CopyA.requestOf b m p]))
                      (CopyA.requestOf b m p));
      try destruct (JSON_parse _);
      try (eexists; exists [CopyA.requestOf b m p];
           split; [reflexivity | simpl; lia]);
      (eexists; exists [CopyA.requestOf b m p; CopyA.requestOf b m p];
       rewrite <- app_assoc; split; [reflexivity | simpl; lia]).
  - by_reply (generateContent env (List.length log) (CopyB.requestOf b m p));
      try by_reply (generateContent env
                      (List.length (log ++ [CopyB.requestOf b m p]))
                      (CopyB.requestOf b m p));
      try destruct (JSON_parse _);
      try (eexists; exists [CopyB.requestOf b m p];
           split; [reflexivity | simpl; lia]);
      (eexists; exists [CopyB.requestOf b m p; CopyB.requestOf b m p];
       rewrite <- app_assoc; split; [reflexivity | simpl; lia]).
  - by_reply (generateContent env (List.length log) (CopyA.requestOf b m p));
      try destruct (JSON_parse _);
      (eexists; exists [CopyA.requestOf b m p];
       split; [reflexivity | simpl; lia]).
  - by_reply (generateContent env (List.length log) (CopyB.requestOf b m p));
      try destruct (JSON_parse _);
      (eexists; exists [CopyB.requestOf b m p];
       split; [reflexivity | simpl; lia]).
Qed.

Lemma truthy_false (o : option string) :
  truthy o = false -> o = None \/ o = Some EmptyString.
Proof.
  destruct o as [[|ch t]|]; simpl; intros H;
    [right; reflexivity | discriminate | left; reflexivity].
Qed.

(** C6: when the provider's first response carries no text (missing or
    empty), the call issues the same request exactly once more, two
    requests in all; when the second response carries no text either, the
    call resolves with the empty array instead of rejecting.  Both copies. *)
Theorem C6_empty_response_retried_once (c : Copy) (env : Env)
  (b m : string) (p : ModelProvider) (t0 : option string) :
  truthy (API_KEY env) = true ->
  generateContent env 0 (requestOf c b m p) = Respond t0 ->
  truthy t0 = false ->
  let req := requestOf c b m p in
  (exists outcome,
      extractTransactionsFromDocument c env b m p 0 [] =
      Some (outcome, [req; req])) /\
  (forall t1,
      generateContent env 1 req = Respond t1 -> truthy t1 = false ->
      extractTransactionsFromDocument c env b m p 0 [] =
      Some (Resolved (JArray []), [req; req])).
Proof.
  intros Hk H0 Ht0 req.
  rewrite (extract_unrolled c env b m p Hk). fold req. unfold req in *.
  rewrite H0.
  apply truthy_false in Ht0. split.
  - destruct Ht0; subst; eexists; reflexivity.
  - intros t1 H1 Ht1. rewrite H1. apply truthy_false in Ht1.
    destruct Ht0, Ht1; subst; reflexivity.
Qed.

Lemma C6_empty_response_retried_once_witness :
  extractTransactionsFromDocument A
    (scripted [Respond None; Respond (Some EmptyString)])
    "data:application/pdf;base64,AAAA" pdf GEMINI_FLASH 0 [] =
  Some (Resolved (JArray []),
        [mkRequest flash pdf "AAAA"; mkRequest flash pdf "AAAA"]).
Proof.
  apply (proj2 (C6_empty_response_retried_once A
                  (scripted [Respond None; Respond (Some EmptyString)])
                  "data:application/pdf;base64,AAAA" pdf GEMINI_FLASH None
                  eq_refl eq_refl eq_refl)
               (Some EmptyString)); reflexivity.
Defined.

(** No call issues more than two requests, and every request of a call is
    the same request. *)
Lemma extract_requests (c : Copy) (env : Env) (b m : string)
  (p : ModelProvider) :
  exists outcome log,
    extractTransactionsFromDocument c env b m p 0 [] = Some (outcome, log) /\
    (List.length log <= 2)%nat /\
    Forall (fun r => r = requestOf c b m p) log.
Proof.
  destruct (truthy (API_KEY env)) eqn:Hk.
  - rewrite (extract_unrolled c env b m p Hk).
    destruct (generateContent env 0 (requestOf c b m p)) as [[[|ch t]|]|e];
      do 2 eexists; (split; [reflexivity|]); simpl; split;
        try lia; repeat constructor.
  - rewrite (extract_without_key c env b m p Hk).
    do 2 eexists. split; [reflexivity|]. simpl. split; [lia | constructor].
Qed.


Lemma onError_rejects (c : Copy) (p : ModelProvider) (modelName : string)
  (e : Thrown) :
  onError c p modelName e =
  Rejected (tag c p modelName ++ friendlyMessage c (errStr e) p).
Proof.
  destruct c; simpl; [unfold CopyA.onError | unfold CopyB.onError].
  - destruct (ModelProvider_eqb p GROK_BETA || (modelName =? pro)%string);
      reflexivity.
  - destruct (ModelProvider_eqb p GROK_BETA); reflexivity.
Qed.

(** The [Error] thrown on a parse failure is thrown inside the outer [try]:
    its [catch] classifies it again, no rule matches the illegible message,
    and the generic message replaces it. *)
Lemma illegible_reclassified (c : Copy) (p : ModelProvider) :
  friendlyMessage c (errStr (newError illegible)) p = failedToProcess.
Proof. destruct c; reflexivity. Qed.

Lemma parse_failure_message (c : Copy) (env : Env) (b m : string)
  (p : ModelProvider) (ch : ascii) (t : string) :
  truthy (API_KEY env) = true ->
  generateContent env 0 (requestOf c b m p) = Respond (Some (String ch t)) ->
  JSON_parse (parsedText c (stripFences (String ch t))) = None ->
  let req := requestOf c b m p in
  extractTransactionsFromDocument c env b m p 0 [] =
  Some (Rejected (tag c p (model req) ++ failedToProcess), [req]).
Proof.
  intros Hk H0 Hn req.
  rewrite (extract_unrolled c env b m p Hk). fold req. unfold req in *.
  rewrite H0. unfold settle. rewrite Hn, onError_rejects.
  rewrite illegible_reclassified. reflexivity.
Qed.





(** Lower-casing keeps prefixes and substrings. *)
Lemma prefix_toLowerCase (p s : string) :
  prefix p s = true -> prefix (toLowerCase p) (toLowerCase s) = true.
Proof.
  revert s; induction p as [|a p IH]; intros s H; simpl;
    [destruct s; reflexivity|].
  destruct s as [|c s]; simpl in *; [discriminate|].
  destruct (ascii_dec a c) as [e|n]; [|discriminate].
  subst. destruct (ascii_dec (lowerChar c) (lowerChar c)); [|congruence].
  apply IH. exact H.
Qed.

Lemma includes_toLowerCase (s sub : string) :
  includes s sub = true ->
  includes (toLowerCase s) (toLowerCase sub) = true.
Proof.
  induction s as [|c s IH]; cbn [includes toLowerCase].
  - destruct (prefix sub EmptyString) eqn:E; intros H; [|discriminate].
    apply prefix_toLowerCase in E. cbn [toLowerCase] in E.
    rewrite E. reflexivity.
  - destruct (prefix sub (String c s)) eqn:E; intros H.
    + apply prefix_toLowerCase in E. cbn [toLowerCase] in E.
      rewrite E. reflexivity.
    + rewrite (IH H).
      destruct (prefix (toLowerCase sub) (String (lowerChar c) (toLowerCase s)));
        reflexivity.
Qed.




(** The size test in characters of base64: more than 10 MB decoded is at
    least 13981014 characters. *)
Lemma size_threshold (cleanBase64 : string) :
  Exact.Qlt_bool 10 (CopyA.approximateSizeInMB cleanBase64) =
  (13981014 <=? Z.of_nat (String.length cleanBase64))%Z.
Proof.
  unfold Exact.Qlt_bool, CopyA.approximateSizeInMB.
  set (n := Z.of_nat (String.length cleanBase64)).
  destruct (13981014 <=? n)%Z eqn:E.
  - apply Z.leb_le in E. apply negb_true_iff.
    destruct (Qle_bool (inject_Z n * 0.75 / (1024 * 1024)) 10) eqn:Q;
      [|reflexivity].
    apply Qle_bool_iff in Q. unfold Qle in Q. simpl in Q. lia.
  - apply Z.leb_gt in E. apply negb_false_iff. apply Qle_bool_iff.
    unfold Qle. simpl. lia.
Qed.


Lemma replicate_length (n : nat) (c : ascii) :
  String.length (replicate n c) = n.
Proof. induction n as [|n IH]; simpl; [reflexivity | now rewrite IH]. Qed.

Lemma split_replicate (n : nat) :
  split "," (replicate n "A") = [replicate n "A"].
Proof.
  induction n as [|n IH]; [reflexivity|].
  cbn [replicate split]. rewrite IH. reflexivity.
Qed.

Lemma largePayload_clean : cleanBase64 largePayload = largePayload.
Proof.
  unfold cleanBase64, largePayload. rewrite split_replicate. reflexivity.
Qed.

Lemma largePayload_size :
  (10 < CopyA.approximateSizeInMB (cleanBase64 largePayload))%Q.
Proof.
  rewrite largePayload_clean.
  unfold CopyA.approximateSizeInMB, largePayload.
  rewrite replicate_length, Z2Nat.id by lia. reflexivity.
Qed.

(** C9, as stated, fails in the copy without auto-scaling: a payload of
    fourteen million base64 characters, above 10 MB decoded, sent with the
    fast tier is requested from the fast model. *)
Lemma C9_counterexample :
  (10 < CopyA.approximateSizeInMB (cleanBase64 largePayload))%Q /\
  CopyB.extractTransactionsFromDocument
    (scripted [Respond (Some "[]")]) largePayload pdf GEMINI_FLASH 0 [] =
  Some (Resolved (JArray []), [mkRequest flash pdf largePayload]) /\
  flash <> pro.
Proof.
  split; [exact largePayload_size|]. split; [|discriminate].
  change (extractTransactionsFromDocument B (scripted [Respond (Some "[]")])
            largePayload pdf GEMINI_FLASH 0 [] =
          Some (Resolved (JArray []), [mkRequest flash pdf largePayload])).
  rewrite (extract_unrolled B (scripted [Respond (Some "[]")])
             largePayload pdf GEMINI_FLASH eq_refl).
  cbn [requestOf]. unfold CopyB.requestOf. rewrite largePayload_clean.
  reflexivity.
Qed.

(** C9, amended: every request of a call carries one model, a function of
    the payload size and the provider choice alone.  In the copy with
    auto-scaling it is the high-capacity model when the approximate decoded
    size exceeds 10 MB (13981014 base64 characters or more) or the caller
    chose Gemini Pro or Grok, and the fast model otherwise; in the other
    copy the size plays no part and it is the high-capacity model exactly
    when the caller chose Gemini Pro or Grok. *)
Theorem C9_model_selection (c : Copy) (env : Env) (b m : string)
  (p : ModelProvider) (outcome : Outcome) (log : list Request) :
  extractTransactionsFromDocument c env b m p 0 [] = Some (outcome, log) ->
  let size := CopyA.approximateSizeInMB (cleanBase64 b) in
  let requested :=
    match p with GEMINI_FLASH => false | GEMINI_PRO | GROK_BETA => true end in
  let chosen :=
    match c with
    | A => if Exact.Qlt_bool 10 size || requested then pro else flash
    | B => if requested then pro else flash
    end in
  Forall (fun r => model r = chosen) log /\
  (Exact.Qlt_bool 10 size = true <-> (10 < size)%Q) /\
  ((10 < size)%Q <->
   (13981014 <= Z.of_nat (String.length (cleanBase64 b)))%Z).
Proof.
  intros H size requested chosen.
  assert (Hq : Exact.Qlt_bool 10 size = true <-> (10 < size)%Q).
  { unfold Exact.Qlt_bool. rewrite negb_true_iff. split.
    - intros E. apply Qnot_le_lt. intros L. apply Qle_bool_iff in L. congruence.
    - intros L. destruct (Qle_bool size 10) eqn:E; [|reflexivity].
      apply Qle_bool_iff in E. apply Qlt_not_le in L. contradiction. }
  split; [|split; [exact Hq|]].
  - assert (Hm : model (requestOf c b m p) = chosen).
    { unfold chosen, requested, size.
      destruct c; cbn [requestOf];
        [unfold CopyA.requestOf, CopyA.selectModel
        |unfold CopyB.requestOf, CopyB.selectModel]; cbn [model];
        destruct p; cbn [ModelProvider_eqb orb];
        rewrite ?orb_false_r, ?orb_true_r; reflexivity. }
    destruct (extract_requests c env b m p) as (o & l & E & _ & F).
    rewrite E in H. inversion H; subst.
    eapply Forall_impl; [|exact F]. intros r ->. exact Hm.
  - rewrite <- Hq. unfold size. rewrite size_threshold. apply Z.leb_le.
Qed.

Lemma C9_model_selection_witness :
  Forall (fun r => model r = pro)
         [mkRequest pro pdf "AAAA"; mkRequest pro pdf "AAAA"].
Proof.
  apply (proj1 (C9_model_selection A
                  (scripted [Respond None; Respond (Some "[]")])
                  "AAAA" pdf GROK_BETA (Resolved (JArray []))
                  [mkRequest pro pdf "AAAA"; mkRequest pro pdf "AAAA"]
                  eq_refl)).
Defined.

End Pipeline.

(** * The tax schedule *)

Section TaxSchedule.
Import Exact TaxTable.
Local Open Scope Q_scope.

























End TaxSchedule.


(** * The calls of the service *)

Section ServiceCalls.
Import Js Json Service Copies Samples ServiceFacts.
Local Open Scope string_scope.

Ltac open_call c :=
  destruct c; cbn [extractTransactionsFromDocument requestOf];
  [ unfold CopyA.extractTransactionsFromDocument
  | unfold CopyB.extractTransactionsFromDocument ];
  cbn [Nat.sub CopyA.extract CopyB.extract Nat.ltb Nat.leb Nat.add].
Ltac by_reply r := destruct r as [[[|?ch ?t]|]|?e].

(** The call from any log, unrolled. *)
Lemma extract_unrolled_at (c : Copy) (env : Env) (b m : string)
  (p : ModelProvider) (retryCount : nat) (log : list Request) :
  truthy (API_KEY env) = true ->
  let req := requestOf c b m p in
  let i := List.length log in
  extractTransactionsFromDocument c env b m p retryCount log =
  match generateContent env i req with
  | Throw error => Some (onError c p (model req) error, (log ++ [req])%list)
  | Respond (Some (String ch t)) =>
      Some (settle c p (model req) (String ch t), (log ++ [req])%list)
  | Respond _ =>
      if (retryCount <? 1)%nat
      then Some (lastAttempt c p (model req) (generateContent env (S i) req),
                 (log ++ [req; req])%list)
      else Some (Resolved (JArray []), (log ++ [req])%list)
  end.
Proof.
  intros Hk req i. unfold req, i.
  assert (Hl : forall r : Request,
             List.length (log ++ [r]) = S (List.length log))
    by (intros r; rewrite length_app; simpl; lia).
  assert (Ha : forall r : Request,
             ((log ++ [r]) ++ [r])%list = (log ++ [r; r])%list)
    by (intros r; rewrite <- app_assoc; reflexivity).
  destruct retryCount as [|k]; open_call c; rewrite Hk; cbn [negb];
    unfold lastAttempt, settle, parsedText, onError.
  - by_reply (generateContent env (List.length log) (CopyA.requestOf b m p));
      rewrite ?Hl, ?Ha;
      try by_reply (generateContent env (S (List.length log)) (CopyA.requestOf b m p));
      try destruct (JSON_parse _); reflexivity.
  - by_reply (generateContent env (List.length log) (CopyB.requestOf b m p));
      rewrite ?Hl, ?Ha;
      try by_reply (generateContent env (S (List.length log)) (CopyB.requestOf b m p));
      try destruct (JSON_parse _); reflexivity.
  - by_reply (generateContent env (List.length log) (CopyA.requestOf b m p));
      try destruct (JSON_parse _); reflexivity.
  - by_reply (generateContent env (List.length log) (CopyB.requestOf b m p));
      try destruct (JSON_parse _); reflexivity.
Qed.

(** Without a key the call is refused before anything else happens. *)
Lemma extract_without_key_at (c : Copy) (env : Env) (b m : string)
  (p : ModelProvider) (retryCount : nat) (log : list Request) :
  truthy (API_KEY env) = false ->
  extractTransactionsFromDocument c env b m p retryCount log =
  Some (Rejected missingKey, log).
Proof.
  intros Hk. destruct retryCount; open_call c; rewrite Hk; reflexivity.
Qed.

(** X7.  With a key, the call sends the same request once, and a second
    time exactly when the first reply carries no text and the call is not
    itself a retry; it never sends a third. *)
Theorem requests_issued (c : Copy) (env : Env) (b m : string)
  (p : ModelProvider) (retryCount : nat) (log : list Request) :
  truthy (API_KEY env) = true ->
  let req := requestOf c b m p in
  let retried :=
    (retryCount <? 1)%nat
    && emptyReply (generateContent env (List.length log) req) in
  exists outcome,
    extractTransactionsFromDocument c env b m p retryCount log =
    Some (outcome,
          (log ++ (if retried then [req; req] else [req]))%list).
Proof.
  intros Hk req retried. unfold retried.
  rewrite (extract_unrolled_at c env b m p retryCount log Hk). fold req.
  by_reply (generateContent env (List.length log) req); cbn [emptyReply];
    rewrite ?andb_false_r, ?andb_true_r;
    try (eexists; reflexivity);
    destruct (retryCount <? 1)%nat; eexists; reflexivity.
Qed.

Lemma requests_issued_witness :
  exists outcome,
    extractTransactionsFromDocument B
      (scripted [Respond None; Respond (Some "[]")]) "AAAA" pdf GROK_BETA 0 [] =
    Some (outcome, [mkRequest pro pdf "AAAA"; mkRequest pro pdf "AAAA"]).
Proof.
  apply (requests_issued B (scripted [Respond None; Respond (Some "[]")])
           "AAAA" pdf GROK_BETA 0 [] eq_refl).
Defined.

Lemma friendlyMessage_listed (c : Copy) (errStr : string) (p : ModelProvider) :
  In (friendlyMessage c errStr p) (friendlyMessages c).
Proof.
  destruct c; cbn [friendlyMessage friendlyMessages];
    [unfold CopyA.friendlyMessage | unfold CopyB.friendlyMessage];
    repeat match goal with
           | |- context [if ?x then _ else _] => destruct x
           end;
    simpl; tauto.
Qed.

(** The prefixes a message can carry. *)
Lemma tag_cases (c : Copy) (p : ModelProvider) (modelName : string) :
  tag c p modelName = EmptyString \/
  tag c p modelName = "[Pro Audit] " \/
  tag c p modelName = "[Grok Beta] ".
Proof.
  unfold tag. destruct c.
  - destruct (ModelProvider_eqb p GROK_BETA || (modelName =? pro)%string);
      [right; left | left]; reflexivity.
  - destruct (ModelProvider_eqb p GROK_BETA);
      [right; right | left]; reflexivity.
Qed.

(** With a key, a rejection carries one of the messages of the [catch]
    block. *)
Lemma rejection_shape_keyed (c : Copy) (env : Env) (b m : string)
  (p : ModelProvider) (retryCount : nat) (log log' : list Request)
  (msg : string) :
  truthy (API_KEY env) = true ->
  extractTransactionsFromDocument c env b m p retryCount log =
  Some (Rejected msg, log') ->
  exists friendly,
    In friendly (friendlyMessages c) /\
    msg = tag c p (model (requestOf c b m p)) ++ friendly.
Proof.
  intros Hk H.
  rewrite (extract_unrolled_at c env b m p retryCount log Hk) in H.
  assert (Hon : forall e (o l : list Request),
             Some (onError c p (model (requestOf c b m p)) e, l)
             = Some (Rejected msg, o) ->
             exists friendly,
               In friendly (friendlyMessages c) /\
               msg = tag c p (model (requestOf c b m p)) ++ friendly).
  { intros e o l E. rewrite onError_rejects in E. inversion E.
    eexists. split; [apply friendlyMessage_listed | reflexivity]. }
  assert (Hse : forall txt (o l : list Request),
             Some (settle c p (model (requestOf c b m p)) txt, l)
             = Some (Rejected msg, o) ->
             exists friendly,
               In friendly (friendlyMessages c) /\
               msg = tag c p (model (requestOf c b m p)) ++ friendly).
  { intros txt o l E. unfold settle in E.
    destruct (JSON_parse _); [discriminate|]. eapply Hon. exact E. }
  by_reply (generateContent env (List.length log) (requestOf c b m p)).
  - destruct (retryCount <? 1)%nat; [|discriminate].
    unfold lastAttempt in H.
    by_reply (generateContent env (S (List.length log)) (requestOf c b m p));
      try discriminate; [eapply Hse | eapply Hon]; exact H.
  - eapply Hse; exact H.
  - destruct (retryCount <? 1)%nat; [|discriminate].
    unfold lastAttempt in H.
    by_reply (generateContent env (S (List.length log)) (requestOf c b m p));
      try discriminate; [eapply Hse | eapply Hon]; exact H.
  - eapply Hon; exact H.
Qed.

(** X6.  The call is rejected with the message about the missing key
    exactly when the environment holds no key; it is then rejected at once,
    whatever the retry count, and no request reaches the provider. *)
Theorem missing_key_rejected_at_once (c : Copy) (env : Env) (b m : string)
  (p : ModelProvider) (retryCount : nat) (log : list Request) :
  (exists log',
      extractTransactionsFromDocument c env b m p retryCount log =
      Some (Rejected missingKey, log'))
  <-> truthy (API_KEY env) = false /\
      extractTransactionsFromDocument c env b m p retryCount log =
      Some (Rejected missingKey, log).
Proof.
  split.
  - intros (log' & H). destruct (truthy (API_KEY env)) eqn:Hk.
    + exfalso.
      destruct (rejection_shape_keyed c env b m p retryCount log log' _ Hk H)
        as (friendly & Hin & E).
      destruct (tag_cases c p (model (requestOf c b m p))) as [T|[T|T]];
        rewrite T in E; clear - Hin E;
        destruct c; cbn [friendlyMessages In] in Hin;
        repeat (destruct Hin as [ <- | Hin ]); try contradiction;
        discriminate.
    + split; [reflexivity|]. apply extract_without_key_at. exact Hk.
  - intros [_ H]. exists log. exact H.
Qed.



(** Splitting at the first separator. *)
Lemma split_lacks (c : ascii) (s : string) :
  lacks c s = true -> split c s = [s].
Proof.
  induction s as [|d s IH]; [reflexivity|].
  cbn [lacks split]. intros H. apply andb_true_iff in H as [Hd Hs].
  apply negb_true_iff in Hd. rewrite Hd, (IH Hs). reflexivity.
Qed.

Lemma split_app (c : ascii) (h t : string) :
  lacks c h = true ->
  split c (h ++ String c t) = h :: split c t.
Proof.
  induction h as [|d h IH]; cbn [lacks append split].
  - intros _. rewrite Ascii.eqb_refl. reflexivity.
  - intros H. apply andb_true_iff in H as [Hd Hs].
    apply negb_true_iff in Hd. rewrite Hd, (IH Hs). reflexivity.
Qed.

(** X9.  A data URL with one comma loses its header and keeps its payload;
    a bare payload without a comma passes unchanged; a header with nothing
    behind its comma is sent as it is. *)
Theorem cleanBase64_strips_header (header payload : string) :
  lacks "," header = true ->
  lacks "," payload = true ->
  cleanBase64 (header ++ String "," payload) =
    match payload with
    | EmptyString => header ++ ","
    | _ => payload
    end /\
  cleanBase64 payload = payload.
Proof.
  intros Hh Hp. unfold cleanBase64. split.
  - rewrite (split_app _ _ _ Hh), (split_lacks _ _ Hp). cbn [nth_error].
    destruct payload; reflexivity.
  - rewrite (split_lacks _ _ Hp). reflexivity.
Qed.

Lemma cleanBase64_strips_header_witness :
  cleanBase64 "data:application/pdf;base64,JVBERi0x" = "JVBERi0x" /\
  cleanBase64 "JVBERi0x" = "JVBERi0x".
Proof.
  apply (cleanBase64_strips_header "data:application/pdf;base64" "JVBERi0x");
    reflexivity.
Defined.

(** Removing a pattern that starts with a character the text lacks. *)
Lemma prefix_lacks (c : ascii) (pat s : string) :
  lacks c s = true -> prefix (String c pat) s = false.
Proof.
  destruct s as [|d s]; [reflexivity|].
  cbn [lacks prefix]. intros H. apply andb_true_iff in H as [Hd _].
  apply negb_true_iff in Hd.
  destruct (ascii_dec c d) as [e|n]; [|reflexivity].
  subst. rewrite Ascii.eqb_refl in Hd. discriminate.
Qed.

Lemma removeAll_lacks (c : ascii) (pat s : string) :
  lacks c s = true -> removeAll (String c pat) s = s.
Proof.
  unfold removeAll. induction s as [|d s IH]; [reflexivity|].
  intros H. cbn [removeAll_from].
  rewrite (prefix_lacks c pat _ H).
  cbn [lacks] in H. apply andb_true_iff in H as [_ Hs].
  rewrite (IH Hs). reflexivity.
Qed.


Lemma prefix_head (c d : ascii) (pat rest : string) :
  Ascii.eqb d c = false -> prefix (String c pat) (String d rest) = false.
Proof.
  intros H. cbn [prefix]. destruct (ascii_dec c d) as [e|n]; [|reflexivity].
  subst. rewrite Ascii.eqb_refl in H. discriminate.
Qed.

Lemma removeAll_json_close (s : string) :
  lacks "`" s = true ->
  removeAll "```json" (s ++ "```") = s ++ "```".
Proof.
  unfold removeAll. induction s as [|d s IH]; [reflexivity|].
  intros H. cbn [lacks] in H. apply andb_true_iff in H as [Hd Hs].
  apply negb_true_iff in Hd.
  cbn [append removeAll_from]. rewrite (prefix_head _ _ _ _ Hd).
  rewrite (IH Hs). reflexivity.
Qed.

Lemma removeAll_close (s : string) :
  lacks "`" s = true ->
  removeAll "```" (s ++ "```") = s.
Proof.
  unfold removeAll. induction s as [|d s IH]; [reflexivity|].
  intros H. cbn [lacks] in H. apply andb_true_iff in H as [Hd Hs].
  apply negb_true_iff in Hd.
  cbn [append removeAll_from]. rewrite (prefix_head _ _ _ _ Hd).
  rewrite (IH Hs). reflexivity.
Qed.

(** X10.  A response wrapped in a Markdown json fence is read like the bare
    text inside the fence: both are trimmed to the same text and settle the
    call in the same way. *)
Theorem fenced_response_unwrapped (c : Copy) (p : ModelProvider)
  (modelName s : string) :
  lacks "`" s = true ->
  stripFences ("```json" ++ s ++ "```") = trim s /\
  stripFences s = trim s /\
  settle c p modelName ("```json" ++ s ++ "```") = settle c p modelName s.
Proof.
  intros H.
  assert (E1 : stripFences ("```json" ++ s ++ "```") = trim s).
  { unfold stripFences.
    assert (E : removeAll "```json" ("```json" ++ s ++ "```")
                = removeAll "```json" (s ++ "```"))
      by (unfold removeAll; cbn; destruct (s ++ "```"); reflexivity).
    rewrite E, (removeAll_json_close s H), (removeAll_close s H).
    reflexivity. }
  assert (E2 : stripFences s = trim s).
  { unfold stripFences.
    rewrite (removeAll_lacks "`" "``json" s H).
    rewrite (removeAll_lacks "`" "``" s H). reflexivity. }
  split; [exact E1|]. split; [exact E2|].
  unfold settle. rewrite E1, E2. reflexivity.
Qed.

Lemma fenced_response_unwrapped_witness :
  stripFences ("```json" ++ " [] " ++ "```") = trim " [] " /\
  stripFences " [] " = trim " [] " /\
  settle A GEMINI_FLASH flash ("```json" ++ " [] " ++ "```")
  = settle A GEMINI_FLASH flash " [] ".
Proof.
  apply (fenced_response_unwrapped A GEMINI_FLASH flash " [] "). reflexivity.
Defined.


Lemma substring_last (s : string) :
  substring (String.length s - 1) 1 s =
  match lastChar s with
  | Some c => String c EmptyString
  | None => EmptyString
  end.
Proof.
  induction s as [|a r IH]; [reflexivity|].
  destruct r as [|b r']; [reflexivity|].
  remember (String.length (String b r') - 1)%nat as k eqn:Hk.
  replace (String.length (String a (String b r')) - 1)%nat
    with (S k) by (subst k; cbn [String.length]; lia).
  remember (String b r') as r eqn:Hr.
  cbn [substring]. subst k. rewrite IH. subst r. reflexivity.
Qed.

Lemma endsWith_lastChar (s : string) (c : ascii) :
  endsWith s (String c EmptyString) = true <-> lastChar s = Some c.
Proof.
  unfold endsWith. rewrite substring_last. cbn [String.length].
  destruct s as [|a r]; [cbn; split; discriminate|].
  change (1 <=? String.length (String a r))%nat with true. cbn [andb].
  destruct (lastChar (String a r)) as [d|] eqn:E.
  - rewrite String.eqb_eq. split; intros H; inversion H; reflexivity.
  - destruct r; cbn in E; try discriminate. 
    exfalso. revert E. clear. generalize a0. induction r as [|x r IH]; intros y E.
    + discriminate.
    + cbn in E. apply (IH x). exact E.
Qed.

Lemma lastChar_app (x : string) (c : ascii) :
  lastChar (x ++ String c EmptyString) = Some c.
Proof.
  induction x as [|a r IH]; [reflexivity|].
  cbn [append lastChar]. destruct (r ++ String c EmptyString) eqn:E.
  - destruct r; discriminate.
  - exact IH.
Qed.

(** X11.  The repair of a truncated array is applied at most once: it
    either leaves the text alone or produces a text that ends with a
    closing bracket, which a second repair leaves alone. *)
Theorem repair_idempotent (cleanJson : string) :
  CopyA.repair (CopyA.repair cleanJson) = CopyA.repair cleanJson /\
  (CopyA.repair cleanJson = cleanJson \/
   endsWith (CopyA.repair cleanJson) "]" = true).
Proof.
  assert (Hshape : CopyA.repair cleanJson = cleanJson \/
                   endsWith (CopyA.repair cleanJson) "]" = true).
  { unfold CopyA.repair.
    destruct (startsWith cleanJson "[" && negb (endsWith cleanJson "]"));
      [|left; reflexivity].
    destruct (negb (lastIndexOf cleanJson "}" =? -1)%Z); [|left; reflexivity].
    right. apply endsWith_lastChar. apply lastChar_app. }
  split; [|exact Hshape].
  destruct Hshape as [E|E].
  - rewrite !E. reflexivity.
  - unfold CopyA.repair at 1. rewrite E. cbn [negb]. rewrite andb_false_r.
    reflexivity.
Qed.
End ServiceCalls.


(** * What the parser leaves *)

Section Suffixes.
Import Js Json ParserFacts.
Local Open Scope string_scope.

Lemma append_assoc (a b c : string) : (a ++ b) ++ c = a ++ (b ++ c).
Proof. induction a as [|x a IH]; cbn [append]; [reflexivity | now rewrite IH]. Qed.

Lemma Suffix_refl (s : string) : Suffix s s.
Proof. exists EmptyString. reflexivity. Qed.

Lemma Suffix_cons (c : ascii) (r s : string) :
  Suffix r s -> Suffix r (String c s).
Proof. intros [pre E]. exists (String c pre). rewrite E. reflexivity. Qed.

Lemma Suffix_trans (a b c : string) : Suffix a b -> Suffix b c -> Suffix a c.
Proof.
  intros [p E] [q F]. exists (q ++ p). rewrite F, E. symmetry.
  apply append_assoc.
Qed.

Lemma Closed_Suffix (rest r s : string) :
  Closed rest r -> Suffix r s -> Closed rest s.
Proof.
  intros [p E] [q F]. exists (q ++ p). rewrite F, E. symmetry.
  apply append_assoc.
Qed.

Lemma Closed_here (rest : string) : Closed rest (String "]" rest).
Proof. exists EmptyString. reflexivity. Qed.

Lemma Closed_is_Suffix (rest s : string) : Closed rest s -> Suffix rest s.
Proof.
  intros [p E]. exists (p ++ "]"). rewrite E, append_assoc. reflexivity.
Qed.

Lemma skip_ws_Suffix (s : string) : Suffix (skip_ws s) s.
Proof.
  induction s as [|c r IH]; cbn [skip_ws]; [apply Suffix_refl|].
  destruct (isWhite c); [apply Suffix_cons, IH | apply Suffix_refl].
Qed.

Lemma drop_Suffix (n : nat) (s : string) : Suffix (drop n s) s.
Proof.
  revert s. induction n as [|n IH]; intros s; cbn [drop]; [apply Suffix_refl|].
  destruct s as [|c r]; [apply Suffix_refl | apply Suffix_cons, IH].
Qed.

Lemma parse_chars_Suffix :
  forall n s str rest,
    (String.length s <= n)%nat ->
    parse_chars s = Some (str, rest) -> Suffix rest s.
Proof.
  induction n as [|n IH]; intros s str rest Hn H.
  - destruct s; simpl in *; [discriminate | lia].
  - destruct s as [|c r]; simpl in H; [discriminate|].
    simpl in Hn.
    destruct (Ascii.eqb c quote).
    { inversion H; subst. apply Suffix_cons, Suffix_refl. }
    destruct (Ascii.eqb c backslash).
    + destruct r as [|e r1]; [discriminate|]. simpl in Hn.
      assert (Hplain : forall d,
                 match parse_chars r1 with
                 | Some (str0, rest0) => Some (String d str0, rest0)
                 | None => None
                 end = Some (str, rest) ->
                 Suffix rest (String c (String e r1))).
      { intros d Hd. destruct (parse_chars r1) as [[s0 r0]|] eqn:E; [|discriminate].
        inversion Hd; subst. apply IH in E; [|lia].
        apply Suffix_cons, Suffix_cons, E. }
      repeat match type of H with
             | (if ?b then _ else _) = _ =>
                 destruct b; [solve [eapply Hplain; exact H] |]
             end.
      destruct (Ascii.eqb e "u"); [|discriminate].
      destruct r1 as [|h1 [|h2 [|h3 [|h4 r2]]]]; try discriminate.
      destruct (hex4 h1 h2 h3 h4); [|discriminate].
      destruct (parse_chars r2) as [[s0 r0]|] eqn:E; [|discriminate].
      inversion H; subst. apply IH in E; [|simpl in Hn; lia].
      do 6 apply Suffix_cons. exact E.
    + destruct (nat_of_ascii c <? 32)%nat; [discriminate|].
      destruct (parse_chars r) as [[s0 r0]|] eqn:E; [|discriminate].
      inversion H; subst. apply IH in E; [|lia]. apply Suffix_cons, E.
Qed.

Lemma digits_Suffix :
  forall s acc k m k' rest,
    digits s acc k = (m, k', rest) -> Suffix rest s.
Proof.
  induction s as [|c r IH]; intros acc k m k' rest H; simpl in H.
  - inversion H; subst. apply Suffix_refl.
  - destruct (digitValue c).
    + apply IH in H. apply Suffix_cons, H.
    + inversion H; subst. apply Suffix_refl.
Qed.

Lemma parse_number_Suffix (s : string) (v : JSON) (rest : string) :
  parse_number s = Parsed v rest -> Suffix rest s.
Proof.
  unfold parse_number.
  destruct (parse_sign s) as [sign s1] eqn:S.
  assert (S1 : Suffix s1 s).
  { unfold parse_sign in S. destruct s as [|c r].
    - inversion S; subst. apply Suffix_refl.
    - destruct (Ascii.eqb c "-"); inversion S; subst;
        [apply Suffix_cons, Suffix_refl | apply Suffix_refl]. }
  destruct (parse_int s1) as [[m r1]|] eqn:Hi; [|discriminate].
  assert (S2 : Suffix r1 s1).
  { unfold parse_int in Hi. destruct s1 as [|c r]; [discriminate|].
    destruct (Ascii.eqb c "0").
    - inversion Hi; subst. apply Suffix_cons, Suffix_refl.
    - destruct (digitValue c) as [d|]; [|discriminate].
      destruct (digits r d 1) as [[a b] r2] eqn:E.
      inversion Hi; subst. apply digits_Suffix in E. apply Suffix_cons, E. }
  destruct (parse_fraction m r1) as [[[m' k] r2]|] eqn:F; [|discriminate].
  assert (S3 : Suffix r2 r1).
  { unfold parse_fraction in F. destruct r1 as [|c r].
    - inversion F; subst. apply Suffix_refl.
    - destruct (Ascii.eqb c ".").
      + destruct (digits r m 0) as [[a b] r3] eqn:E.
        destruct (b =? 0)%Z; [discriminate|].
        inversion F; subst. apply digits_Suffix in E. apply Suffix_cons, E.
      + inversion F; subst. apply Suffix_refl. }
  destruct (parse_exponent r2) as [[e r3]|] eqn:X; [|discriminate].
  assert (S4 : Suffix r3 r2).
  { unfold parse_exponent in X. destruct r2 as [|c r].
    - inversion X; subst. apply Suffix_refl.
    - destruct (Ascii.eqb c "e" || Ascii.eqb c "E").
      + destruct (parse_exponent_sign r) as [sg r4] eqn:G.
        assert (S5 : Suffix r4 r).
        { unfold parse_exponent_sign in G. destruct r as [|d r'].
          - inversion G; subst. apply Suffix_refl.
          - destruct (Ascii.eqb d "-");
              [inversion G; subst; apply Suffix_cons, Suffix_refl|].
            destruct (Ascii.eqb d "+"); inversion G; subst;
              [apply Suffix_cons, Suffix_refl | apply Suffix_refl]. }
        destruct (digits r4 0 0) as [[a b] r5] eqn:E.
        destruct (b =? 0)%Z; [discriminate|].
        inversion X; subst. apply digits_Suffix in E.
        apply Suffix_cons. eapply Suffix_trans; eassumption.
      + inversion X; subst. apply Suffix_refl. }
  intros H; inversion H; subst.
  eapply Suffix_trans; [|exact S1].
  eapply Suffix_trans; [|exact S2].
  eapply Suffix_trans; [|exact S3]. exact S4.
Qed.


Lemma parse_Suffix (fuel : nat) :
  (forall s v rest,
      parse_value fuel s = Parsed v rest ->
      Suffix rest s /\
      (forall r, skip_ws s = String "[" r -> Closed rest s)) /\
  (forall s acc v rest,
      parse_elements fuel s acc = Parsed v rest -> Closed rest s) /\
  (forall s acc v rest,
      parse_members fuel s acc = Parsed v rest -> Suffix rest s).
Proof.
  induction fuel as [|fuel (IHv & IHe & IHm)].
  - repeat split; intros; discriminate.
  - split; [|split].
    + intros s v rest. cbn [parse_value].
      pose proof (skip_ws_Suffix s) as Hw.
      destruct (skip_ws s) as [|c r] eqn:E; [discriminate|].
      destruct (Ascii.eqb c "{") eqn:Eo.
      { apply Ascii.eqb_eq in Eo. subst c.
        intros H.
        assert (Hs : Suffix rest (String "{" r)).
        { pose proof (skip_ws_Suffix r) as Hr.
          destruct (skip_ws r) as [|c1 r1] eqn:E1.
          - apply IHm in H. apply Suffix_cons, H.
          - destruct c1 as [[] [] [] [] [] [] [] []];
              try (apply IHm in H; apply Suffix_cons, H).
            inversion H; subst. apply Suffix_cons.
            eapply Suffix_trans; [|exact Hr]. apply Suffix_cons, Suffix_refl. }
        split; [eapply Suffix_trans; eassumption|].
        intros r0 K. discriminate. }
      destruct (Ascii.eqb c "[") eqn:Ea.
      { apply Ascii.eqb_eq in Ea. subst c.
        intros H.
        assert (Hc : Closed rest (String "[" r)).
        { pose proof (skip_ws_Suffix r) as Hr.
          assert (Hel : parse_elements fuel r [] = Parsed v rest ->
                        Closed rest (String "[" r)).
          { intros K. apply IHe in K.
            eapply Closed_Suffix; [exact K | apply Suffix_cons, Suffix_refl]. }
          destruct (skip_ws r) as [|c1 r1] eqn:E1; [exact (Hel H)|].
          destruct c1 as [[] [] [] [] [] [] [] []]; try exact (Hel H).
          inversion H; subst.
          eapply Closed_Suffix; [apply Closed_here|].
          apply Suffix_cons. exact Hr. }
        split.
        - eapply Suffix_trans; [apply Closed_is_Suffix; exact Hc | exact Hw].
        - intros _ _. eapply Closed_Suffix; [exact Hc | exact Hw]. }
      assert (Hno : forall r0 : string, String c r = String "[" r0 -> False).
      { intros r0 K. inversion K; subst. discriminate. }
      intros H.
      assert (Hs : Suffix rest (String c r)).
      { destruct (Ascii.eqb c quote).
        { destruct (parse_chars r) as [[str r']|] eqn:P; [|discriminate].
          inversion H; subst.
          apply (parse_chars_Suffix _ _ _ _ (le_n _)) in P.
          apply Suffix_cons, P. }
        destruct (prefix "true" (String c r));
          [replace rest with (drop 4 (String c r)) by congruence;
           apply drop_Suffix|].
        destruct (prefix "false" (String c r));
          [replace rest with (drop 5 (String c r)) by congruence;
           apply drop_Suffix|].
        destruct (prefix "null" (String c r));
          [replace rest with (drop 4 (String c r)) by congruence;
           apply drop_Suffix|].
        eapply parse_number_Suffix; exact H. }
      split; [eapply Suffix_trans; eassumption|].
      intros r0 K. exfalso. exact (Hno r0 K).
    + intros s acc v rest. cbn [parse_elements].
      destruct (parse_value fuel s) as [v0 r| |] eqn:P; try discriminate.
      apply IHv in P. destruct P as [Ps _].
      pose proof (skip_ws_Suffix r) as Hw.
      destruct (skip_ws r) as [|c r']; [discriminate|].
      destruct (Ascii.eqb c ",") eqn:Ec.
      { intros H. apply IHe in H.
        eapply Closed_Suffix; [exact H|].
        eapply Suffix_trans; [|exact Ps].
        eapply Suffix_trans; [|exact Hw]. apply Suffix_cons, Suffix_refl. }
      destruct (Ascii.eqb c "]") eqn:Eb; [|discriminate].
      apply Ascii.eqb_eq in Eb. subst c.
      intros H. inversion H; subst.
      eapply Closed_Suffix; [apply Closed_here|].
      eapply Suffix_trans; eassumption.
    + intros s acc v rest. cbn [parse_members].
      pose proof (skip_ws_Suffix s) as Hw.
      destruct (skip_ws s) as [|c r]; [discriminate|].
      destruct (negb (Ascii.eqb c quote)); [discriminate|].
      destruct (parse_chars r) as [[key r1]|] eqn:P; [|discriminate].
      apply (parse_chars_Suffix _ _ _ _ (le_n _)) in P.
      pose proof (skip_ws_Suffix r1) as Hw1.
      destruct (skip_ws r1) as [|c1 r2]; [discriminate|].
      destruct (negb (Ascii.eqb c1 ":")); [discriminate|].
      destruct (parse_value fuel r2) as [v0 r3| |] eqn:V; try discriminate.
      apply IHv in V. destruct V as [Vs _].
      pose proof (skip_ws_Suffix r3) as Hw3.
      destruct (skip_ws r3) as [|c2 r4]; [discriminate|].
      assert (Hr4 : Suffix r4 s).
      { eapply Suffix_trans; [|exact Hw]. apply Suffix_cons.
        eapply Suffix_trans; [|exact P].
        eapply Suffix_trans; [|exact Hw1]. apply Suffix_cons.
        eapply Suffix_trans; [|exact Vs].
        eapply Suffix_trans; [|exact Hw3]. apply Suffix_cons, Suffix_refl. }
      destruct (Ascii.eqb c2 ",").
      { intros H. apply IHm in H. eapply Suffix_trans; eassumption. }
      destruct (Ascii.eqb c2 "}"); [|discriminate].
      intros H. inversion H; subst. exact Hr4.
Qed.

End Suffixes.


(** * The repair and the parser *)

Section RepairRefines.
Import Js Json Service Copies ServiceFacts ParserFacts.
Local Open Scope string_scope.

Lemma lastChar_append (pre : string) (c : ascii) (rest : string) :
  lastChar (pre ++ String c rest) = lastChar (String c rest).
Proof.
  induction pre as [|a p IH]; [reflexivity|].
  cbn [append]. remember (String c rest) as t eqn:Ht.
  cbn [lastChar]. destruct (p ++ t) eqn:E.
  - destruct p; subst t; discriminate.
  - exact IH.
Qed.

(** Text that [skip_ws] consumes entirely ends with white space, if it has
    an end. *)
Lemma skip_ws_all (s : string) :
  skip_ws s = EmptyString ->
  match lastChar s with Some c => isWhite c = true | None => True end.
Proof.
  induction s as [|a r IH]; [intros _; exact I|].
  cbn [skip_ws]. destruct (isWhite a) eqn:W; [|discriminate].
  intros H. specialize (IH H). destruct r as [|b r']; [exact W | exact IH].
Qed.

Lemma isWhite_isTrimmed (c : ascii) : isWhite c = true -> isTrimmed c = true.
Proof.
  unfold isWhite, isTrimmed. 
  destruct (nat_of_ascii c =? 32)%nat, (nat_of_ascii c =? 9)%nat,
    (nat_of_ascii c =? 10)%nat, (nat_of_ascii c =? 13)%nat,
    (nat_of_ascii c =? 11)%nat, (nat_of_ascii c =? 12)%nat;
    cbn; intros H; try reflexivity; discriminate.
Qed.

(** A trimmed text does not end with white space. *)
Lemma trimEnd_last (s : string) (c : ascii) :
  lastChar (trimEnd s) = Some c -> isTrimmed c = false.
Proof.
  revert c. induction s as [|a r IH]; intros c; [discriminate|].
  cbn [trimEnd]. destruct (trimEnd r) as [|b r'] eqn:E.
  - destruct (isTrimmed a) eqn:T; [discriminate|].
    intros H. inversion H; subst. exact T.
  - intros H. apply IH. exact H.
Qed.

(** A trimmed text that opens with a bracket and parses ends with one. *)
Lemma parsed_array_closed (s : string) (v : JSON) :
  startsWith (trim s) "[" = true ->
  JSON_parse (trim s) = Some v ->
  endsWith (trim s) "]" = true.
Proof.
  intros Hs Hp. unfold JSON_parse in Hp.
  destruct (parse_value (2 * String.length (trim s) + 2) (trim s))
    as [v0 rest| |] eqn:P; try discriminate.
  destruct (skip_ws rest) eqn:W; [|discriminate].
  destruct (parse_Suffix (2 * String.length (trim s) + 2)) as (Hv & _).
  destruct (Hv _ _ _ P) as [_ Hc].
  assert (Hopen : exists r, skip_ws (trim s) = String "[" r).
  { unfold startsWith in Hs. destruct (trim s) as [|a r]; [discriminate|].
    cbn [prefix] in Hs. destruct (ascii_dec "[" a) as [e|n]; [|discriminate].
    subst a. exists r. reflexivity. }
  destruct Hopen as [r Hr]. destruct (Hc r Hr) as [pre E].
  apply endsWith_lastChar. rewrite E, lastChar_append.
  destruct rest as [|w rest']; [reflexivity|].
  exfalso.
  pose proof (skip_ws_all _ W) as Hl.
  assert (Hlast : lastChar (trim s) = lastChar (String w rest')).
  { rewrite E, lastChar_append. reflexivity. }
  destruct (lastChar (String w rest')) as [z|] eqn:Z.
  - apply isWhite_isTrimmed in Hl.
    unfold trim in Hlast. apply trimEnd_last in Hlast. congruence.
  - destruct rest'; cbn in Z; try discriminate.
    clear - Z. revert a Z. induction rest' as [|x r IH]; intros a Z;
      [discriminate|]. cbn in Z. exact (IH x Z).
Qed.

(** X12.  The repair never spoils a response: whenever the copy without
    the repair step resolves a response to a value, the repair leaves the
    cleaned text unchanged and the copy with the repair step resolves the
    response to the same value. *)
Theorem repair_keeps_what_parses (p : ModelProvider)
  (modelA modelB jsonText : string) (v : JSON) :
  settle B p modelB jsonText = Resolved v ->
  CopyA.repair (stripFences jsonText) = stripFences jsonText /\
  settle A p modelA jsonText = Resolved v.
Proof.
  unfold settle, parsedText. intros H.
  destruct (JSON_parse (stripFences jsonText)) as [v0|] eqn:P.
  2:{ rewrite onError_rejects in H. discriminate. }
  inversion H; subst v0.
  assert (E : CopyA.repair (stripFences jsonText) = stripFences jsonText).
  { unfold CopyA.repair.
    destruct (startsWith (stripFences jsonText) "[") eqn:S; [|reflexivity].
    unfold stripFences in *.
    rewrite (parsed_array_closed _ v S P). reflexivity. }
  split; [exact E|]. rewrite E, P. reflexivity.
Qed.

Lemma repair_keeps_what_parses_witness :
  CopyA.repair (stripFences "```json[true, null]```")
  = stripFences "```json[true, null]```" /\
  settle A GEMINI_FLASH flash "```json[true, null]```"
  = Resolved (JArray [JBool true; JNull]).
Proof.
  apply (repair_keeps_what_parses GEMINI_FLASH flash flash
           "```json[true, null]```" (JArray [JBool true; JNull])).
  reflexivity.
Defined.

End RepairRefines.


(** * The dashboard *)

Section DashboardFacts.

Import Js Dashboard.
Local Open Scope Q_scope.





Lemma includes_empty (s : string) : includes s EmptyString = true.
Proof. destruct s; reflexivity. Qed.

(** X14.  The search of the dashboard: an empty term lists every
    transaction; what is listed is among the transactions; and a term
    finds every transaction whose description contains it in any mix of
    upper and lower case (of the ASCII letters). *)
Theorem search_lists_matches (numberToString : Q -> string)
  (searchTerm : string) (transactions : list Transaction) :
  filteredTransactions numberToString EmptyString transactions = transactions /\
  (forall t, In t (filteredTransactions numberToString searchTerm transactions)
             -> In t transactions) /\
  (forall t word,
      In t transactions ->
      includes (description t) word = true ->
      toLowerCase word = toLowerCase searchTerm ->
      In t (filteredTransactions numberToString searchTerm transactions)).
Proof.
  unfold filteredTransactions. split; [|split].
  - induction transactions as [|t l IH]; [reflexivity|].
    cbn [filter]. unfold matches at 1. cbn [toLowerCase].
    rewrite includes_empty. cbn [orb]. rewrite IH. reflexivity.
  - intros t H. apply filter_In in H. apply H.
  - intros t word Hin Hinc Hw. apply filter_In. split; [exact Hin|].
    unfold matches. rewrite <- Hw.
    rewrite (includes_toLowerCase _ _ Hinc). reflexivity.
Qed.

Lemma doubleQuotes_paired (s : string) : quotesPaired (doubleQuotes s) = true.
Proof.
  induction s as [|c s IH]; [reflexivity|].
  cbn [doubleQuotes]. destruct (Ascii.eqb c Json.quote) eqn:E.
  - cbn [quotesPaired]. rewrite !Ascii.eqb_refl. exact IH.
  - cbn [quotesPaired]. rewrite E. exact IH.
Qed.

Lemma doubleQuotes_injective (s1 s2 : string) :
  doubleQuotes s1 = doubleQuotes s2 -> s1 = s2.
Proof.
  revert s2. induction s1 as [|c s1 IH]; intros [|d s2] H.
  - reflexivity.
  - cbn [doubleQuotes] in H. destruct (Ascii.eqb d Json.quote); discriminate.
  - cbn [doubleQuotes] in H. destruct (Ascii.eqb c Json.quote); discriminate.
  - cbn [doubleQuotes] in H.
    destruct (Ascii.eqb c Json.quote) eqn:Ec;
    destruct (Ascii.eqb d Json.quote) eqn:Ed.
    + apply Ascii.eqb_eq in Ec, Ed. subst. inversion H as [K].
      f_equal. apply IH. exact K.
    + inversion H; subst. rewrite Ascii.eqb_refl in Ed. discriminate.
    + inversion H; subst. rewrite Ascii.eqb_refl in Ec. discriminate.
    + inversion H as [[K1 K2]]. f_equal. apply IH. exact K2.
Qed.

Lemma append_cancel_r (a b t : string) : (a ++ t)%string = (b ++ t)%string -> a = b.
Proof.
  revert b. induction a as [|x a IH]; intros b H.
  - destruct b as [|y b]; [reflexivity|]. exfalso.
    assert (L : String.length (EmptyString ++ t) = String.length (String y b ++ t))
      by (rewrite H; reflexivity).
    cbn [append String.length] in L.
    assert (forall u v : string, String.length (u ++ v) = (String.length u + String.length v)%nat) as La
      by (intros u v; induction u as [|z u IHu]; cbn; [reflexivity | now rewrite IHu]).
    rewrite La in L. lia.
  - destruct b as [|y b].
    + exfalso.
      assert (L : String.length (String x a ++ t) = String.length (EmptyString ++ t))
        by (rewrite H; reflexivity).
      cbn [append String.length] in L.
      assert (forall u v : string, String.length (u ++ v) = (String.length u + String.length v)%nat) as La
        by (intros u v; induction u as [|z u IHu]; cbn; [reflexivity | now rewrite IHu]).
      rewrite La in L. lia.
    + cbn [append] in H. inversion H; subst. f_equal. apply IH. assumption.
Qed.

(** X15.  The exported description cell loses nothing: inside the cell
    every double quote of the description is doubled, and two descriptions
    with the same cell are the same description. *)
Theorem exported_description_is_recoverable (d1 d2 : string) :
  quotesPaired (doubleQuotes d1) = true /\
  (quotedCell d1 = quotedCell d2 -> d1 = d2).
Proof.
  split; [apply doubleQuotes_paired|].
  unfold quotedCell. intros H. inversion H as [K].
  apply append_cancel_r in K. apply doubleQuotes_injective. exact K.
Qed.

End DashboardFacts.


(** * The upload form and the application shell *)

Section UploadFacts.

Import Js Service FileUpload.
Local Open Scope Q_scope.

Lemma Qlt_bool_true (x y : Q) : Exact.Qlt_bool x y = true -> x < y.
Proof.
  unfold Exact.Qlt_bool. intros H. apply negb_true_iff in H.
  apply Qle_bool_false. exact H.
Qed.

Lemma Qlt_bool_false (x y : Q) : Exact.Qlt_bool x y = false -> y <= x.
Proof.
  unfold Exact.Qlt_bool. intros H. apply negb_false_iff in H.
  apply Qle_bool_true. exact H.
Qed.

Lemma tick_onScale (p : Q) :
  onScale p -> onScale (tick p) /\ p <= tick p /\
               (tick p == 90 \/ p + 0.5 <= tick p).
Proof.
  intros ([k Hk] & H0 & H90). unfold tick, onScale, inHalves.
  destruct (Exact.Qlt_bool p 30) eqn:E1.
  { apply Qlt_bool_true in E1.
    refine (conj (conj _ (conj _ _)) (conj _ (or_intror _))); try lra.
    exists (k + 10)%Z. rewrite Hk. unfold Qeq, Qplus. simpl. lia. }
  apply Qlt_bool_false in E1.
  destruct (Exact.Qlt_bool p 70) eqn:E2.
  { apply Qlt_bool_true in E2.
    refine (conj (conj _ (conj _ _)) (conj _ (or_intror _))); try lra.
    exists (k + 4)%Z. rewrite Hk. unfold Qeq, Qplus. simpl. lia. }
  apply Qlt_bool_false in E2.
  destruct (Exact.Qlt_bool p 90) eqn:E3.
  { apply Qlt_bool_true in E3.
    assert (Hlt : (k < 180)%Z).
    { rewrite Hk in E3. unfold Qlt in E3. simpl in E3. lia. }
    assert (Hle : (k # 2) <= 179 # 2) by (unfold Qle; simpl; lia).
    refine (conj (conj _ (conj _ _)) (conj _ (or_intror _))); try lra.
    exists (k + 1)%Z. rewrite Hk. unfold Qeq, Qplus. simpl. lia. }
  apply Qlt_bool_false in E3.
  refine (conj (conj _ (conj _ _)) (conj _ (or_introl _))); try lra.
  exists 180%Z. reflexivity.
Qed.

Lemma ticks_S (n : nat) (p : Q) : ticks (S n) p = tick (ticks n p).
Proof.
  revert p. induction n as [|n IH]; intros p; [reflexivity|].
  change (ticks (S (S n)) p) with (ticks (S n) (tick p)).
  rewrite IH. reflexivity.
Qed.

Lemma ticks_onScale (n : nat) (p : Q) : onScale p -> onScale (ticks n p).
Proof.
  revert p. induction n as [|n IH]; intros p H; [exact H|].
  cbn [ticks]. apply IH. apply tick_onScale. exact H.
Qed.

Lemma ticks_reach (n : nat) (p : Q) :
  onScale p -> (90 - p) * 2 <= inject_Z (Z.of_nat n) -> ticks n p == 90.
Proof.
  revert p. induction n as [|n IH]; intros p H Hn.
  - cbn [ticks]. destruct H as (_ & _ & H90).
    change (inject_Z (Z.of_nat 0)) with 0 in Hn. lra.
  - cbn [ticks]. destruct (tick_onScale p H) as (Ht & _ & Hs).
    apply IH; [exact Ht|].
    assert (Hinj : inject_Z (Z.of_nat (S n)) == inject_Z (Z.of_nat n) + 1).
    { rewrite Nat2Z.inj_succ. unfold Z.succ. rewrite inject_Z_plus.
      reflexivity. }
    rewrite Hinj in Hn. destruct Hs as [Hs|Hs]; [|lra].
    rewrite Hs. assert (0 <= inject_Z (Z.of_nat n)).
    { change 0 with (inject_Z 0). rewrite <- Zle_Qle. lia. }
    lra.
Qed.

(** X16.  The progress bar, started anywhere on its scale of halves
    between 0 and 90, stays on that scale, never moves back, never passes
    90, and stands at 90 after at most 180 ticks. *)
Theorem progress_bar (n : nat) (p : Q) :
  inHalves p -> 0 <= p -> p <= 90 ->
  inHalves (ticks n p) /\
  p <= ticks n p /\ ticks n p <= 90 /\
  ticks n p <= ticks (S n) p /\
  ((180 <= n)%nat -> ticks n p == 90).
Proof.
  intros Hh H0 H90.
  assert (H : onScale p) by (repeat split; assumption).
  pose proof (ticks_onScale n p H) as (Hn1 & Hn2 & Hn3).
  split; [exact Hn1|]. split; [|split; [exact Hn3|split]].
  - clear Hn1 Hn2 Hn3. revert p H Hh H0 H90.
    induction n as [|n IH]; intros p H Hh H0 H90; cbn [ticks]; [lra|].
    destruct (tick_onScale p H) as (Ht & Hle & _).
    destruct Ht as (T1 & T2 & T3).
    specialize (IH (tick p) (conj T1 (conj T2 T3)) T1 T2 T3). lra.
  - rewrite ticks_S. apply tick_onScale. apply ticks_onScale. exact H.
  - intros Hbig. apply ticks_reach; [exact H|].
    assert (180 <= inject_Z (Z.of_nat n)).
    { change 180 with (inject_Z 180). rewrite <- Zle_Qle. lia. }
    lra.
Qed.

Lemma progress_bar_witness :
  inHalves (ticks 66 0) /\
  0 <= ticks 66 0 /\ ticks 66 0 <= 90 /\
  ticks 66 0 <= ticks 67 0 /\
  ((180 <= 66)%nat -> ticks 66 0 == 90).
Proof.
  apply (progress_bar 66 0); [exists 0%Z; reflexivity | lra | lra].
Defined.

End UploadFacts.

Section EscalationFacts.

Import Js Service FileUpload.
Local Open Scope Z_scope.

Lemma selectModel_flash (clean : string) :
  CopyA.selectModel clean GEMINI_FLASH =
  if (13981014 <=? Z.of_nat (String.length clean)) then pro else flash.
Proof.
  unfold CopyA.selectModel. rewrite size_threshold.
  cbn [ModelProvider_eqb]. rewrite !orb_false_r. reflexivity.
Qed.

(** X17.  For a file read as base64 and sent with the Flash provider, the
    service copy with automatic escalation moves to the Pro model exactly
    from 10 MiB of file size on.  Behind the upload form with the 5 MB
    ceiling it therefore never escalates; the form with the 500 MB ceiling
    admits every allowed file between 10 MiB and 500 MiB, and each is
    escalated. *)
Theorem escalation_from_ten_MiB (clean fileType : string) (fileSize : Z) :
  0 <= fileSize ->
  Z.of_nat (String.length clean) = base64Length fileSize ->
  (CopyA.selectModel clean GEMINI_FLASH = pro <->
   10 * 1024 * 1024 <= fileSize) /\
  (processFile5 fileType fileSize = Read ->
   CopyA.selectModel clean GEMINI_FLASH = flash) /\
  (allowed fileType = true ->
   10 * 1024 * 1024 <= fileSize <= 500 * 1024 * 1024 ->
   processFile500 fileType fileSize = Read /\
   CopyA.selectModel clean GEMINI_FLASH = pro).
Proof.
  intros H0 Hl. rewrite selectModel_flash, Hl. unfold base64Length.
  assert (Hiff : 13981014 <= 4 * ((fileSize + 2) / 3)
                 <-> 10 * 1024 * 1024 <= fileSize).
  { pose proof (Z.div_mod (fileSize + 2) 3 ltac:(lia)) as D.
    pose proof (Z.mod_pos_bound (fileSize + 2) 3 ltac:(lia)) as M.
    lia. }
  assert (H500 : allowed fileType = true ->
                 fileSize <= 500 * 1024 * 1024 ->
                 processFile500 fileType fileSize = Read).
  { intros Ha Hs. unfold processFile500, processFile. rewrite Ha. cbn [negb].
    destruct (500 * 1024 * 1024 <? fileSize) eqn:L; [|reflexivity].
    apply Z.ltb_lt in L. lia. }
  destruct (13981014 <=? 4 * ((fileSize + 2) / 3)) eqn:E.
  - apply Z.leb_le in E. split; [|split].
    + split; [intros _; apply Hiff; exact E | reflexivity].
    + unfold processFile5, processFile.
      destruct (negb (allowed fileType)); [discriminate|].
      destruct (5 * 1024 * 1024 <? fileSize) eqn:L; [discriminate|].
      apply Z.ltb_ge in L. apply Hiff in E. lia.
    + intros Ha [_ Hs]. split; [apply H500; assumption | reflexivity].
  - apply Z.leb_gt in E. split; [|split].
    + split; [discriminate | intros K; apply Hiff in K; lia].
    + reflexivity.
    + intros _ [K _]. apply Hiff in K. lia.
Qed.

Lemma escalation_from_ten_MiB_witness :
  (CopyA.selectModel "JVBERi0x" GEMINI_FLASH = pro <->
   10 * 1024 * 1024 <= 6) /\
  (processFile5 "application/pdf" 6 = Read ->
   CopyA.selectModel "JVBERi0x" GEMINI_FLASH = flash) /\
  (allowed "application/pdf" = true ->
   10 * 1024 * 1024 <= 6 <= 500 * 1024 * 1024 ->
   processFile500 "application/pdf" 6 = Read /\
   CopyA.selectModel "JVBERi0x" GEMINI_FLASH = pro).
Proof.
  apply (escalation_from_ten_MiB "JVBERi0x" "application/pdf" 6);
    [lia | reflexivity].
Defined.

End EscalationFacts.

Section AppFacts.

Import Js Json Service Copies ServiceFacts App.
Local Open Scope string_scope.

(** Every message of the service is shown as it is: none is empty and none
    is the fallback text. *)
Lemma message_shown (c : Copy) (p : ModelProvider) (modelName friendly : string) :
  In friendly (friendlyMessages c) ->
  orElse (Some (tag c p modelName ++ friendly)) fallbackAlert
  = tag c p modelName ++ friendly /\
  tag c p modelName ++ friendly <> fallbackAlert.
Proof.
  intros Hin.
  pose proof (tag_cases c p modelName) as Ht.
  destruct c; cbn [friendlyMessages In] in Hin;
    repeat (destruct Hin as [ <- | Hin ]); try contradiction;
    destruct Ht as [ -> | [ -> | -> ] ]; (split; [reflexivity | discriminate]).
Qed.

(** X18.  Processing a file always ends with the processing flag cleared.
    When the service resolves, its value becomes the transactions, the
    dashboard is shown and no alert is raised; when it rejects, exactly one
    alert is raised, with the message of the service and never the fallback
    text of the shell, and transactions and view stay as they were. *)
Theorem handleFileProcess_settles (c : Copy) (env : Env) (b m : string)
  (p : ModelProvider) (st : State) :
  exists st' outcome log,
    extractTransactionsFromDocument c env b m p 0 [] = Some (outcome, log) /\
    handleFileProcess c env b m p st = Some st' /\
    isProcessing st' = false /\
    match outcome with
    | Resolved extractedData =>
        transactions st' = extractedData /\
        view st' = dashboard /\
        alerts st' = alerts st
    | Rejected msg =>
        transactions st' = transactions st /\
        view st' = view st /\
        alerts st' = (alerts st ++ [msg])%list /\
        msg <> fallbackAlert
    end.
Proof.
  destruct (extract_requests c env b m p) as (o & l & E & _).
  unfold handleFileProcess. rewrite E. destruct o as [v|msg].
  - eexists; exists (Resolved v), l.
    split; [reflexivity|]. split; [reflexivity|]. split; [reflexivity|].
    repeat split.
  - assert (Hshow : orElse (Some msg) fallbackAlert = msg /\ msg <> fallbackAlert).
    { destruct (truthy (API_KEY env)) eqn:Hk.
      - destruct (rejection_shape_keyed c env b m p 0 [] l msg Hk E)
          as (friendly & Hin & ->).
        apply message_shown. exact Hin.
      - rewrite (extract_without_key_at c env b m p 0 [] Hk) in E.
        inversion E. split; [reflexivity | discriminate]. }
    destruct Hshow as [Ho Hne].
    eexists; exists (Rejected msg), l.
    split; [reflexivity|]. split; [reflexivity|]. split; [reflexivity|].
    cbn [alerts transactions view]. rewrite Ho.
    repeat split; assumption.
Qed.

End AppFacts.
